(** * Newton-Raphson with a complex-step Jacobian (complex_step.cpp)

    A shallow embedding of the solver of [complex_step.cpp] and the proofs
    of its specification.

    The source is written over [std::complex<double>], [arma::Col<T>] and
    [arma::Mat<T>], templates in the scalar type.  The embedding keeps that
    genericity: every function is defined once, over a scalar type carrying
    the arithmetic the program uses (class [Scalar]).  Two instances are
    given:
    - [R], the real numbers: the exact arithmetic in which the derivative
      identities of the complex-step method are stated;
    - [float], IEEE-754 binary64: the arithmetic of the program, where
      NaN and the infinities exist and the definitions can be run.  There
      the library calls are taken by their formulas: pow(z, 2.0) is z * z,
      pow(h, -1.0) is 1 / h, and norm(v, 2) is the square root of the sum
      of the squares.  The libraries compute them otherwise (the complex
      pow through exp and log), so their binary64 values can differ from
      these in rounding and in a tiny imaginary part; what is proved of the
      values of the formulas is proved over [R].

    Vectors ([arma::Col]) are lists; a matrix ([arma::Mat]) is the list of
    its columns, as Armadillo stores it (column-major), so that
    [M.col(j) = v] is a list update at index [j]. *)

From Stdlib Require Import Floats.
From Stdlib Require Import Reals Lra Lia ZArith List.
From stdpp Require Import base tactics option list.
Import ListNotations.

Set Warnings "-inexact-float".

(** ** Scalars *)

Class Scalar (T : Type) : Type := {
  s_zero : T;                 (* 0.0 *)
  s_one : T;                  (* 1.0 *)
  s_add : T -> T -> T;
  s_sub : T -> T -> T;
  s_mul : T -> T -> T;
  s_opp : T -> T;
  s_inv : T -> T;             (* pow(x, -1.0) *)
  s_sqrt : T -> T;
  s_gt : T -> T -> bool;      (* a > b *)
  (* the decimal literals of the program *)
  lit_2_0 : T;                (* 2.0 *)
  lit_1_0E5 : T;              (* 1.0E5 *)
  lit_1_0Em4 : T;             (* 1.0E-4 *)
  lit_1_0Em22 : T             (* 1.0E-22 *)
}.

#[export] Instance Rlt_decision : RelDecision Rlt := Rlt_dec.

#[export] Instance Scalar_R : Scalar R := {|
  s_zero := 0%R;
  s_one := 1%R;
  s_add := Rplus;
  s_sub := Rminus;
  s_mul := Rmult;
  s_opp := Ropp;
  s_inv := Rinv;
  s_sqrt := R_sqrt.sqrt;
  s_gt := fun a b => bool_decide (b < a)%R;
  lit_2_0 := 2%R;
  lit_1_0E5 := (10 ^ 5)%R;
  lit_1_0Em4 := (/ 10 ^ 4)%R;
  lit_1_0Em22 := (/ 10 ^ 22)%R
|}.

#[export] Instance Scalar_float : Scalar float := {|
  s_zero := 0%float;
  s_one := 1%float;
  s_add := PrimFloat.add;
  s_sub := PrimFloat.sub;
  s_mul := PrimFloat.mul;
  s_opp := PrimFloat.opp;
  s_inv := fun x => PrimFloat.div 1%float x;
  s_sqrt := PrimFloat.sqrt;
  s_gt := fun a b => PrimFloat.ltb b a;
  lit_2_0 := 2%float;
  lit_1_0E5 := 1e5%float;
  lit_1_0Em4 := 1e-4%float;
  lit_1_0Em22 := 1e-22%float
|}.

(** ** Complex numbers: [std::complex<T>] *)

Record complex (T : Type) : Type := mkC { re : T; im : T }.
Arguments mkC {T} _ _.
Arguments re {T} _.
Arguments im {T} _.

Abbreviation Col T := (list T) (only parsing).
Abbreviation Mat T := (list (list T)) (only parsing).

Section Arithmetic.
Context {T : Type} `{Scalar T}.

Definition C0 : complex T := mkC s_zero s_zero.

(* the conversion double -> std::complex<double> *)
Definition C_of_real (x : T) : complex T := mkC x s_zero.

Definition Cadd (a b : complex T) : complex T :=
  mkC (s_add (re a) (re b)) (s_add (im a) (im b)).

Definition Csub (a b : complex T) : complex T :=
  mkC (s_sub (re a) (re b)) (s_sub (im a) (im b)).

Definition Cmul (a b : complex T) : complex T :=
  mkC (s_sub (s_mul (re a) (re b)) (s_mul (im a) (im b)))
      (s_add (s_mul (re a) (im b)) (s_mul (im a) (re b))).

(* complex * double *)
Definition Cscale (a : complex T) (x : T) : complex T :=
  mkC (s_mul (re a) x) (s_mul (im a) x).

Definition Cconj (a : complex T) : complex T := mkC (re a) (s_opp (im a)).

(* pow(z, 2.0): the square *)
Definition Cpow2 (a : complex T) : complex T := Cmul a a.

(* pow(-1.0, i) for an int i >= 0 *)
Definition pow_m1 (i : nat) : T :=
  if Nat.even i then s_one else s_opp s_one.

(** Armadillo's element-wise operations. *)
Definition real (v : Col (complex T)) : Col T := map re v.
Definition imag (v : Col (complex T)) : Col T := map im v.
Definition vsub (u v : Col (complex T)) : Col (complex T) := zip_with Csub u v.
Definition vpow2 (v : Col (complex T)) : Col (complex T) := map Cpow2 v.
Definition vsum (v : Col (complex T)) : complex T := fold_left Cadd v C0.
Definition vneg (v : Col T) : Col T := map s_opp v.

(* v.subvec(first, last), both ends included *)
Definition subvec {A} (first last : nat) (v : list A) : list A :=
  take (S last - first) (drop first v).

(* M.row(i), read along the columns *)
Definition row (M : Mat (complex T)) (i : nat) : list (complex T) :=
  map (fun c => nth i c C0) M.

(* .t() of a complex vector is the Hermitian transpose: the entries are
   conjugated (the change of shape is not tracked) *)
Definition t (v : list (complex T)) : list (complex T) := map Cconj v.

(* the entry in row i and column j of a real matrix *)
Definition entry (M : Mat T) (i j : nat) : T := nth i (nth j M []) s_zero.

(* arma::norm(v, 2) *)
Definition norm2 (v : Col T) : T :=
  s_sqrt (fold_left s_add (map (fun x => s_mul x x) v) s_zero).

(* complex column + real column: each real entry is promoted to a complex *)
Definition vadd_real (u : Col (complex T)) (d : Col T) : Col (complex T) :=
  zip_with (fun z x => Cadd z (C_of_real x)) u d.

End Arithmetic.

(** ** The program *)

Definition NUMDIMENSIONS : nat := 3.
Definition MAXITERATIONS : Z := 9.
Definition ERRORTOLLERANCE {T} `{Scalar T} : T := lit_1_0Em4.
Definition PROBEDISTANCE {T} `{Scalar T} : T := lit_1_0Em22.

Section Program.
Context {T : Type} `{Scalar T}.

(** [calculateDependentVariables]: the body of its loop writes
    [targetsCalculated[i]] twice, the second time reading it back. *)
Definition dependentVariable (myOffsets : Mat (complex T))
    (myCurrentGuess targetsCalculated : Col (complex T)) (i : nat)
    : Col (complex T) :=
  let targetsCalculated :=
    <[i := vsum (vpow2 (vsub (subvec 0 1 myCurrentGuess)
                             (t (subvec 0 1 (row myOffsets i)))))]>
      targetsCalculated in
  <[i := Csub (Cadd (nth i targetsCalculated C0)
                    (Cscale (nth 2 myCurrentGuess C0) (pow_m1 i)))
              (nth 2 (row myOffsets i) C0)]> targetsCalculated.

Definition calculateDependentVariables (myOffsets : Mat (complex T))
    (myCurrentGuess targetsCalculated : Col (complex T)) : Col (complex T) :=
  fold_left (dependentVariable myOffsets myCurrentGuess)
            (seq 0 NUMDIMENSIONS) targetsCalculated.

(** [calculateJacobian].  The variables its loop works on: the three
    arguments passed by reference and the local [oldGuessValue]. *)
Record JacobianVars : Type := {
  myJacobian : Mat T;
  myTargetsCalculated : Col (complex T);
  myCurrentGuess : Col (complex T);
  oldGuessValue : complex T
}.

Section Estimator.
(* the probe distance (PROBEDISTANCE in the source), the offsets and the
   function passed through the pointer myCalculateDependentVariables *)
Variable h : T.
Variable myOffsets : Mat (complex T).
Variable myCalculateDependentVariables :
  Mat (complex T) -> Col (complex T) -> Col (complex T) -> Col (complex T).

(* oldGuessValue = myCurrentGuess[j];
   myCurrentGuess[j] += std::complex<double>(0.0, PROBEDISTANCE); *)
Definition perturb (j : nat) (s : JacobianVars) : JacobianVars :=
  {| myJacobian := myJacobian s;
     myTargetsCalculated := myTargetsCalculated s;
     myCurrentGuess :=
       <[j := Cadd (nth j (myCurrentGuess s) C0) (mkC s_zero h)]>
         (myCurrentGuess s);
     oldGuessValue := nth j (myCurrentGuess s) C0 |}.

(* myCalculateDependentVariables(myOffsets, myCurrentGuess, myTargetsCalculated); *)
Definition evaluate (s : JacobianVars) : JacobianVars :=
  {| myJacobian := myJacobian s;
     myTargetsCalculated :=
       myCalculateDependentVariables myOffsets (myCurrentGuess s)
         (myTargetsCalculated s);
     myCurrentGuess := myCurrentGuess s;
     oldGuessValue := oldGuessValue s |}.

(* myJacobian.col(j) = arma::imag(myTargetsCalculated);
   myJacobian.col(j) *= pow(PROBEDISTANCE, -1.0); *)
Definition fillColumn (j : nat) (s : JacobianVars) : JacobianVars :=
  {| myJacobian :=
       alter (map (fun x => s_mul x (s_inv h))) j
         (<[j := imag (myTargetsCalculated s)]> (myJacobian s));
     myTargetsCalculated := myTargetsCalculated s;
     myCurrentGuess := myCurrentGuess s;
     oldGuessValue := oldGuessValue s |}.

(* myCurrentGuess[j] = oldGuessValue; *)
Definition restore (j : nat) (s : JacobianVars) : JacobianVars :=
  {| myJacobian := myJacobian s;
     myTargetsCalculated := myTargetsCalculated s;
     myCurrentGuess := <[j := oldGuessValue s]> (myCurrentGuess s);
     oldGuessValue := oldGuessValue s |}.

(* one turn of the loop over the columns *)
Definition jacobianColumn (s : JacobianVars) (j : nat) : JacobianVars :=
  restore j (fillColumn j (evaluate (perturb j s))).

(* the state of the variables when the loop reaches column j *)
Definition atColumn (s : JacobianVars) (j : nat) : JacobianVars :=
  fold_left jacobianColumn (seq 0 j) s.

(* returns the Jacobian, the targets and the guess, in this order *)
Definition calculateJacobian (myJacobian0 : Mat T)
    (myTargetsCalculated0 myCurrentGuess0 : Col (complex T))
    : Mat T * Col (complex T) * Col (complex T) :=
  let unperturbedTargetsCalculated :=
    myCalculateDependentVariables myOffsets myCurrentGuess0
      (replicate NUMDIMENSIONS C0) in
  let s := atColumn {| myJacobian := myJacobian0;
                       myTargetsCalculated := myTargetsCalculated0;
                       myCurrentGuess := myCurrentGuess0;
                       oldGuessValue := C0 |} NUMDIMENSIONS in
  (myJacobian s, unperturbedTargetsCalculated, myCurrentGuess s).
End Estimator.

(** [solve] is Armadillo's dense solver, [arma::solve(A, b, true)]: an
    external routine, taken as a parameter.  It is a function here: a run
    in which it throws is not described. *)
Section Driver.
Variable solve : Mat T -> Col T -> Col T.

(* returns the guess and the real targets, in this order; the constant
   arguments myTargetsCalculated and myJacobian are only read *)
Definition updateGuess (myCurrentGuess : Col (complex T))
    (myRealTargets : Col T) (myTargetsCalculated : Col (complex T))
    (myJacobian : Mat T) : Col (complex T) * Col T :=
  let myRealTargets := real myTargetsCalculated in
  (vadd_real myCurrentGuess (solve myJacobian (vneg myRealTargets)),
   myRealTargets).

Definition calculateResidual (myTargetsDesired myTargetsCalculated
    : Col (complex T)) : T :=
  norm2 (real (vsub myTargetsDesired myTargetsCalculated)).

(** The variables of [main]. *)
Record State : Type := {
  offsets : Mat (complex T);
  targetsDesired : Col (complex T);
  targetsCalculated : Col (complex T);
  realTargetsCalculated : Col T;
  currentGuess : Col (complex T);
  jacobian : Mat T;
  count : Z;
  error : T
}.

(** [main] calls [calculateDependentVariables] both through the pointer
    it hands to [calculateJacobian] and by name; as the header of the
    source says, that function is specific to the problem and the rest
    is general.  The loop is written for that function as the parameter
    [model], for the probe distance [h], the cap [K] and the tolerance
    [eps]; [main] below is the loop at the program's own values. *)
Variable model :
  Mat (complex T) -> Col (complex T) -> Col (complex T) -> Col (complex T).
Variable h : T.
Variable K : Z.
Variable eps : T.

(* count < MAXITERATIONS and error > ERRORTOLLERANCE *)
Definition loopTest (s : State) : bool :=
  (count s <? K)%Z && s_gt (error s) eps.

(* the first statement of the body: calculateJacobian *)
Definition stepJacobian (s : State) : State :=
  let '(J, tc, g) :=
    calculateJacobian h (offsets s) model (jacobian s)
      (targetsCalculated s) (currentGuess s) in
  {| offsets := offsets s; targetsDesired := targetsDesired s;
     targetsCalculated := tc;
     realTargetsCalculated := realTargetsCalculated s;
     currentGuess := g; jacobian := J;
     count := count s; error := error s |}.

(* the second: updateGuess *)
Definition stepUpdate (s : State) : State :=
  let '(g, rt) :=
    updateGuess (currentGuess s) (realTargetsCalculated s)
      (targetsCalculated s) (jacobian s) in
  {| offsets := offsets s; targetsDesired := targetsDesired s;
     targetsCalculated := targetsCalculated s;
     realTargetsCalculated := rt;
     currentGuess := g; jacobian := jacobian s;
     count := count s; error := error s |}.

(* the rest: the model at the new guess, the residual, count ++ *)
Definition stepScore (s : State) : State :=
  let tc := model (offsets s) (currentGuess s) (targetsCalculated s) in
  {| offsets := offsets s; targetsDesired := targetsDesired s;
     targetsCalculated := tc;
     realTargetsCalculated := realTargetsCalculated s;
     currentGuess := currentGuess s; jacobian := jacobian s;
     count := (count s + 1)%Z;
     error := calculateResidual (targetsDesired s) tc |}.

Definition loopBody (s : State) : State :=
  stepScore (stepUpdate (stepJacobian s)).

(* while (test) body, with a bound on the number of turns: None when the
   bound is reached with the test still true *)
Fixpoint while (fuel : nat) (s : State) : option State :=
  if loopTest s then
    match fuel with
    | O => None
    | S fuel => while fuel (loopBody s)
    end
  else Some s.

(* the variables of main when the loop is reached: every buffer filled
   with 0.0, count = 0, error = 1.0E5 *)
Definition initialState (offsets0 : Mat (complex T))
    (targetsDesired0 currentGuess0 : Col (complex T)) : State :=
  {| offsets := offsets0;
     targetsDesired := targetsDesired0;
     targetsCalculated := replicate NUMDIMENSIONS C0;
     realTargetsCalculated := replicate NUMDIMENSIONS s_zero;
     currentGuess := currentGuess0;
     jacobian := replicate NUMDIMENSIONS (replicate NUMDIMENSIONS s_zero);
     count := 0%Z;
     error := lit_1_0E5 |}.

(* the whole loop; K turns are enough (newtonRaphson_returns) *)
Definition newtonRaphson (offsets0 : Mat (complex T))
    (targetsDesired0 currentGuess0 : Col (complex T)) : option State :=
  while (Z.to_nat K)
    (initialState offsets0 targetsDesired0 currentGuess0).
End Driver.

(* offsets.fill(0.0); offsets.col(0)[0] = 1.0;
   offsets.col(2)[1] = 1.0; offsets.col(2)[2] = 1.0; *)
Definition mainOffsets : Mat (complex T) :=
  alter (<[2 := C_of_real s_one]>) 2
    (alter (<[1 := C_of_real s_one]>) 2
      (alter (<[0 := C_of_real s_one]>) 0
        (replicate NUMDIMENSIONS (replicate NUMDIMENSIONS C0)))).

(* targetsDesired.fill(0.0) and currentGuess.fill(2.0) *)
Definition mainTargetsDesired : Col (complex T) := replicate NUMDIMENSIONS C0.
Definition mainCurrentGuess : Col (complex T) :=
  replicate NUMDIMENSIONS (C_of_real lit_2_0).

Definition main (solve : Mat T -> Col T -> Col T) : option State :=
  newtonRaphson solve calculateDependentVariables PROBEDISTANCE MAXITERATIONS
    ERRORTOLLERANCE mainOffsets mainTargetsDesired mainCurrentGuess.

End Program.

(** ** Shapes, real vectors and models *)

Section Shapes.
Context {T : Type} `{Scalar T}.

(* the entry in row i and column j of a complex matrix *)
Definition Centry (M : Mat (complex T)) (i j : nat) : complex T :=
  nth i (nth j M []) C0.

(* every entry has imaginary part 0.0 *)
Definition all_real (v : Col (complex T)) : Prop :=
  Forall (fun z => im z = s_zero) v.

Definition real_table (M : Mat (complex T)) : Prop := Forall all_real M.

(* a model that fills a buffer of n entries, whatever the buffer held *)
Definition overwrites (n : nat)
    (model : Mat (complex T) -> Col (complex T) -> Col (complex T)
             -> Col (complex T)) : Prop :=
  forall A x b b', length b = n -> length b' = n ->
    model A x b = model A x b' /\ length (model A x b) = n.

(* Model(x): what the model leaves in a buffer of NUMDIMENSIONS entries *)
Definition modelValue
    (model : Mat (complex T) -> Col (complex T) -> Col (complex T)
             -> Col (complex T))
    (A : Mat (complex T)) (x : Col (complex T)) : Col (complex T) :=
  model A x (replicate NUMDIMENSIONS C0).

(* the guess handed to the model for column j: coordinate j moved by i*h *)
Definition perturbed (h : T) (j : nat) (x : Col (complex T))
    : Col (complex T) :=
  <[j := Cadd (nth j x C0) (mkC s_zero h)]> x.

(* the variables of calculateJacobian when its loop starts *)
Definition jacobianVars (J : Mat T) (tc x : Col (complex T)) : JacobianVars :=
  {| myJacobian := J; myTargetsCalculated := tc; myCurrentGuess := x;
     oldGuessValue := C0 |}.

(* a dense solver for NUMDIMENSIONS unknowns, by Cramer's rule; it stands
   for arma::solve where a run needs a solver *)
Definition det3 (M : Mat T) : T :=
  s_add
    (s_sub (s_mul (entry M 0 0)
                  (s_sub (s_mul (entry M 1 1) (entry M 2 2))
                         (s_mul (entry M 1 2) (entry M 2 1))))
           (s_mul (entry M 0 1)
                  (s_sub (s_mul (entry M 1 0) (entry M 2 2))
                         (s_mul (entry M 1 2) (entry M 2 0)))))
    (s_mul (entry M 0 2)
           (s_sub (s_mul (entry M 1 0) (entry M 2 1))
                  (s_mul (entry M 1 1) (entry M 2 0)))).

Definition cramerSolve (M : Mat T) (b : Col T) : Col T :=
  map (fun k => s_mul (det3 (<[k := b]> M)) (s_inv (det3 M)))
      (seq 0 NUMDIMENSIONS).

(* the product of a matrix (given by its columns) and a vector *)
Definition mat_vec (M : Mat T) (v : Col T) : Col T :=
  map (fun i => fold_left s_add
                  (zip_with (fun c x => s_mul (nth i c s_zero) x) M v) s_zero)
      (seq 0 (length v)).

End Shapes.

(** ** The formulas of the specification, in exact arithmetic *)

Section Formulas.
Local Open Scope R_scope.

(* F_i(x) = (x0 - A_i0)^2 + (x1 - A_i1)^2 + (-1)^i x2 - A_i2 *)
Definition paraboloid (A : Mat (complex R)) (x : Col (complex R)) (i : nat)
    : complex R :=
  Csub (Cadd (Cadd (Cpow2 (Csub (nth 0 x C0) (Centry A i 0)))
                   (Cpow2 (Csub (nth 1 x C0) (Centry A i 1))))
             (Cscale (nth 2 x C0) ((-1) ^ i)))
       (Centry A i 2).

(* row i of the analytic Jacobian: 2 (x0 - A_i0), 2 (x1 - A_i1), (-1)^i *)
Definition analyticJacobian (A : Mat (complex R)) (x : Col (complex R))
    (i j : nat) : R :=
  match j with
  | 0%nat => 2 * (re (nth 0 x C0) - re (Centry A i 0))
  | 1%nat => 2 * (re (nth 1 x C0) - re (Centry A i 1))
  | _ => (-1) ^ i
  end.

(* the unit vector e_j of length n, and the probe point x + i h e_j *)
Definition unitVector (n j : nat) : Col (complex R) :=
  map (fun k => if Nat.eqb k j then C_of_real 1 else C0) (seq 0 n).

Definition probePoint (h : R) (j : nat) (x : Col (complex R))
    : Col (complex R) :=
  zip_with Cadd x (map (Cmul (mkC 0 h)) (unitVector (length x) j)).

(* the Euclidean norm of a real vector *)
Definition euclidean (v : Col R) : R :=
  sqrt (fold_right (fun x s => x * x + s) 0 v).

(* Re(F) - Re(F* ), entry by entry *)
Definition realDifference (F Fstar : Col (complex R)) : Col R :=
  zip_with (fun a b => re a - re b) F Fstar.

End Formulas.

(** ** Non-finite values, in binary64 *)

Definition nonfinite (x : float) : bool := is_nan x || is_infinity x.

(* a vector with no imaginary part: every one compares equal to 0.0 *)
Definition isReal (x : Col (complex float)) : bool :=
  forallb (fun z => PrimFloat.eqb (im z) 0%float) x.

(* a model made to fail at the probes: at a point that has an imaginary
   part every real part it returns is +Inf, the imaginary parts being those
   of the model; at a real point it is the model *)
Definition infiniteAtProbes
    (model : Mat (complex float) -> Col (complex float)
             -> Col (complex float) -> Col (complex float))
    (A : Mat (complex float)) (x b : Col (complex float))
    : Col (complex float) :=
  if isReal x then model A x b
  else map (fun z => mkC infinity (im z)) (model A x b).

(** ** Closed forms that describe the program *)

Section ClosedForms.
Context {T : Type} `{Scalar T}.

(* the value calculateDependentVariables leaves at index i *)
Definition targetOf (A : Mat (complex T)) (x : Col (complex T)) (i : nat)
    : complex T :=
  Csub (Cadd (vsum (vpow2 (vsub (subvec 0 1 x) (t (subvec 0 1 (row A i))))))
             (Cscale (nth 2 x C0) (pow_m1 i)))
       (nth 2 (row A i) C0).

(* the Jacobian calculateJacobian builds, column by column *)
Definition jacobianOf (h : T)
    (model : Mat (complex T) -> Col (complex T) -> Col (complex T)
             -> Col (complex T))
    (A : Mat (complex T)) (x : Col (complex T)) : Mat T :=
  map (fun j => map (fun v => s_mul v (s_inv h))
                    (imag (modelValue model A (perturbed h j x))))
      (seq 0 NUMDIMENSIONS).

(* the guess after one turn of the loop *)
Definition newtonStep (solve : Mat T -> Col T -> Col T) (h : T)
    (model : Mat (complex T) -> Col (complex T) -> Col (complex T)
             -> Col (complex T))
    (A : Mat (complex T)) (x : Col (complex T)) : Col (complex T) :=
  vadd_real x (solve (jacobianOf h model A x)
                     (vneg (real (modelValue model A x)))).

(* a solver that is exact on every system of NUMDIMENSIONS equations whose
   determinant is not zero *)
Definition exactSolver (solve : Mat T -> Col T -> Col T) : Prop :=
  forall (J : Mat T) (b : Col T),
    length J = NUMDIMENSIONS ->
    Forall (fun c => length c = NUMDIMENSIONS) J ->
    length b = NUMDIMENSIONS ->
    det3 J <> s_zero ->
    mat_vec J (solve J b) = b /\ length (solve J b) = NUMDIMENSIONS.

End ClosedForms.

(* where one turn on the paraboloids sends the second coordinate *)
Definition newtonY (x y : R) : R :=
  ((y * y + (x - 1) * (x - 1)) / (2 * y))%R.

(* the variables of main on the table of main, at the real guess (a, y, z) *)
Definition at_guess (s : State) (a y z : R) : Prop :=
  offsets s = mainOffsets
  /\ targetsDesired s = mainTargetsDesired
  /\ currentGuess s = [C_of_real a; C_of_real y; C_of_real z]
  /\ length (jacobian s) = NUMDIMENSIONS
  /\ length (targetsCalculated s) = NUMDIMENSIONS.

(** ** Facts that hold in every arithmetic *)

Section Generic.
Context {T : Type} `{Scalar T}.

Lemma restore_perturbed {A} (j : nat) (x : list A) (z d : A) :
  <[j := nth j x d]> (<[j := z]> x) = x.
Proof.
  revert j. induction x as [|a x IH]; intros [|j]; simpl; try reflexivity.
  f_equal. apply IH.
Qed.

Lemma jacobianColumn_guess h A model (s : JacobianVars) (j : nat) :
  myCurrentGuess (jacobianColumn h A model s j) = myCurrentGuess s.
Proof. simpl. apply restore_perturbed. Qed.

Lemma atColumn_S h A model (s : JacobianVars) (j : nat) :
  atColumn h A model s (S j)
  = jacobianColumn h A model (atColumn h A model s j) j.
Proof. unfold atColumn. rewrite seq_S, fold_left_app. reflexivity. Qed.

Lemma atColumn_guess h A model (s : JacobianVars) (j : nat) :
  myCurrentGuess (atColumn h A model s j) = myCurrentGuess s.
Proof.
  induction j as [|j IH]; [reflexivity|].
  rewrite atColumn_S, jacobianColumn_guess. exact IH.
Qed.

Lemma calculateJacobian_guess h A model J tc x :
  (calculateJacobian h A model J tc x).2 = x.
Proof.
  exact (atColumn_guess h A model (jacobianVars J tc x) NUMDIMENSIONS).
Qed.

(* the three columns, one after the other *)
Lemma calculateJacobian_columns h A model J tc x :
  overwrites NUMDIMENSIONS model ->
  length J = NUMDIMENSIONS -> length tc = NUMDIMENSIONS ->
  calculateJacobian h A model J tc x
  = (map (fun j => map (fun v => s_mul v (s_inv h))
                       (imag (modelValue model A (perturbed h j x))))
         (seq 0 NUMDIMENSIONS),
     modelValue model A x, x).
Proof.
  intros Hm HJ Htc.
  destruct J as [|c0 [|c1 [|c2 [|]]]]; try discriminate.
  assert (Hbuf : forall y b, length b = NUMDIMENSIONS ->
            model A y b = modelValue model A y
            /\ length (model A y b) = NUMDIMENSIONS).
  { intros y b Hb. apply Hm; [exact Hb | apply length_replicate]. }
  unfold calculateJacobian, atColumn, jacobianColumn. simpl.
  rewrite !restore_perturbed.
  fold (perturbed h 0 x) (perturbed h 1 x) (perturbed h 2 x).
  destruct (Hbuf (perturbed h 0 x) tc Htc) as [E0 L0]. rewrite E0 in *.
  destruct (Hbuf (perturbed h 1 x) _ L0) as [E1 L1]. rewrite E1 in *.
  destruct (Hbuf (perturbed h 2 x) _ L1) as [E2 L2]. rewrite E2 in *.
  reflexivity.
Qed.

Lemma calculateDependentVariables_overwrites :
  overwrites NUMDIMENSIONS (calculateDependentVariables (T:=T)).
Proof.
  intros A x b b' Hb Hb'.
  destruct b as [|b0 [|b1 [|b2 [|]]]]; try discriminate.
  destruct b' as [|b0' [|b1' [|b2' [|]]]]; try discriminate.
  split; reflexivity.
Qed.

Lemma all_real_nth (v : Col (complex T)) (i : nat) :
  all_real v -> im (nth i v C0) = s_zero.
Proof.
  intros Hv. revert i.
  induction Hv as [|z v Hz _ IH]; intros [|i]; simpl; auto.
Qed.

Lemma real_table_entry (M : Mat (complex T)) (i j : nat) :
  real_table M -> im (Centry M i j) = s_zero.
Proof.
  intros HM. unfold Centry. apply all_real_nth.
  revert j. induction HM as [|c M Hc _ IH]; intros [|j]; simpl; auto;
    constructor.
Qed.

Lemma all_real_replicate (n : nat) (z : complex T) :
  im z = s_zero -> all_real (replicate n z).
Proof. intros Hz. induction n; simpl; constructor; auto. Qed.

End Generic.

Section GenericDriver.
Context {T : Type} `{Scalar T}.
Variable solve : Mat T -> Col T -> Col T.
Variable model :
  Mat (complex T) -> Col (complex T) -> Col (complex T) -> Col (complex T).
Variables (h : T) (K : Z) (eps : T).

Lemma loopBody_count (s : State) :
  count (loopBody solve model h s) = (count s + 1)%Z.
Proof. reflexivity. Qed.

Lemma loopBody_guess (s : State) :
  currentGuess (loopBody solve model h s)
  = vadd_real (currentGuess s)
      (solve (jacobian (stepJacobian model h s))
             (vneg (real (targetsCalculated (stepJacobian model h s))))).
Proof.
  change (currentGuess (loopBody solve model h s))
    with (vadd_real (currentGuess (stepJacobian model h s))
            (solve (jacobian (stepJacobian model h s))
               (vneg (real (targetsCalculated (stepJacobian model h s)))))).
  f_equal.
  exact (calculateJacobian_guess h (offsets s) model (jacobian s)
           (targetsCalculated s) (currentGuess s)).
Qed.

Lemma iter_count (n : nat) (s : State) :
  count (Nat.iter n (loopBody solve model h) s) = (count s + Z.of_nat n)%Z.
Proof.
  induction n as [|n IH]; simpl Nat.iter.
  - lia.
  - rewrite loopBody_count, IH. lia.
Qed.

(* the loop stops within the bound, after n turns whose tests succeeded,
   on a state that fails the test *)
Lemma while_iter (fuel : nat) (s : State) :
  (K - count s <= Z.of_nat fuel)%Z ->
  exists n : nat,
    while solve model h K eps fuel s
    = Some (Nat.iter n (loopBody solve model h) s)
    /\ (n <= fuel)%nat
    /\ (forall k : nat, (k < n)%nat ->
          loopTest K eps (Nat.iter k (loopBody solve model h) s) = true)
    /\ loopTest K eps (Nat.iter n (loopBody solve model h) s) = false.
Proof.
  revert s. induction fuel as [|fuel IH]; intros s Hk.
  - exists 0%nat. simpl.
    assert (Ht : loopTest K eps s = false).
    { unfold loopTest. replace (count s <? K)%Z with false; [reflexivity|].
      symmetry. apply Z.ltb_ge. lia. }
    rewrite Ht. repeat split; auto. intros k Hk0. lia.
  - destruct (loopTest K eps s) eqn:Ht.
    + destruct (IH (loopBody solve model h s)) as (n & Hw & Hn & Hlt & Hex).
      { rewrite loopBody_count. lia. }
      exists (S n). rewrite !Nat.iter_succ_r. simpl. rewrite Ht.
      repeat split; auto; [lia|].
      intros [|k] Hk0; [exact Ht|].
      rewrite Nat.iter_succ_r. apply Hlt. lia.
    + exists 0%nat. simpl. rewrite Ht. repeat split; auto; [lia|].
      intros k Hk0. lia.
Qed.

Lemma newtonRaphson_returns A Fstar x0 :
  exists s : State,
    newtonRaphson solve model h K eps A Fstar x0 = Some s
    /\ loopTest K eps s = false.
Proof.
  destruct (while_iter (Z.to_nat K) (initialState A Fstar x0))
    as (n & Hw & _ & _ & Hex).
  { simpl. lia. }
  eauto.
Qed.

Lemma while_not_entered (fuel : nat) (s : State) :
  loopTest K eps s = false -> while solve model h K eps fuel s = Some s.
Proof. intros Ht. destruct fuel; simpl; rewrite Ht; reflexivity. Qed.

End GenericDriver.

(** ** Exact arithmetic *)

Section Exact.
Local Open Scope R_scope.

Lemma complex_eq (a b : complex R) : re a = re b -> im a = im b -> a = b.
Proof. destruct a, b; simpl; intros -> ->; reflexivity. Qed.

Lemma mainOffsets_real : real_table (mainOffsets (T:=R)).
Proof. repeat constructor. Qed.

Lemma mainCurrentGuess_real : all_real (mainCurrentGuess (T:=R)).
Proof. repeat constructor. Qed.

(** C3: on a real offset table A and a complex vector x of length 3,
    calculateDependentVariables leaves in its buffer the three values
    F_i(x) = (x0 - A_i0)^2 + (x1 - A_i1)^2 + (-1)^i x2 - A_i2, i = 0, 1, 2;
    with the table built in main it leaves the zero vector at (1, 0, 0). *)
Theorem calculateDependentVariables_paraboloid
    (A : Mat (complex R)) (x b : Col (complex R)) :
  real_table A -> length A = NUMDIMENSIONS ->
  length x = NUMDIMENSIONS -> length b = NUMDIMENSIONS ->
  calculateDependentVariables A x b
  = map (paraboloid A x) (seq 0 NUMDIMENSIONS)
  /\ calculateDependentVariables mainOffsets [C_of_real 1; C0; C0] b
     = [C0; C0; C0].
Proof.
  intros HA HlA Hx Hb.
  pose proof (fun i j => real_table_entry A i j HA) as Him.
  destruct A as [|c0 [|c1 [|c2 [|]]]]; try discriminate.
  destruct x as [|x0 [|x1 [|x2 [|]]]]; try discriminate.
  destruct b as [|b0 [|b1 [|b2 [|]]]]; try discriminate.
  pose proof (Him 0%nat 0%nat) as H00. pose proof (Him 0%nat 1%nat) as H01.
  pose proof (Him 1%nat 0%nat) as H10. pose proof (Him 1%nat 1%nat) as H11.
  pose proof (Him 2%nat 0%nat) as H20. pose proof (Him 2%nat 1%nat) as H21.
  unfold Centry in *. simpl in H00, H01, H10, H11, H20, H21.
  split.
  - unfold calculateDependentVariables, dependentVariable, paraboloid, Centry.
    simpl.
    f_equal; [|f_equal; [|f_equal]]; apply complex_eq; simpl;
      unfold pow_m1; simpl;
      rewrite ?H00, ?H01, ?H10, ?H11, ?H20, ?H21; ring.
  - unfold calculateDependentVariables, dependentVariable. simpl.
    f_equal; [|f_equal; [|f_equal]]; apply complex_eq; simpl;
      unfold pow_m1; simpl; ring.
Qed.

Lemma calculateDependentVariables_paraboloid_witness :
  calculateDependentVariables mainOffsets mainCurrentGuess
    (replicate NUMDIMENSIONS C0)
  = map (paraboloid mainOffsets mainCurrentGuess) (seq 0 NUMDIMENSIONS)
  /\ calculateDependentVariables mainOffsets [C_of_real 1; C0; C0]
       (replicate NUMDIMENSIONS C0)
     = [C0; C0; C0].
Proof.
  apply (calculateDependentVariables_paraboloid mainOffsets mainCurrentGuess
           (replicate NUMDIMENSIONS C0)).
  - exact mainOffsets_real.
  - reflexivity.
  - reflexivity.
  - reflexivity.
Defined.

(** C4: in exact arithmetic, for a real guess x, a real offset table and any
    probe distance h > 0, the Jacobian that calculateJacobian builds from
    calculateDependentVariables is the analytic one: row i is
    2 (x0 - A_i0), 2 (x1 - A_i1), (-1)^i, with no term in h. *)
Theorem calculateJacobian_analytic (h : R) (A : Mat (complex R))
    (J : Mat R) (tc x : Col (complex R)) :
  0 < h ->
  real_table A -> length A = NUMDIMENSIONS ->
  all_real x -> length x = NUMDIMENSIONS ->
  length J = NUMDIMENSIONS -> length tc = NUMDIMENSIONS ->
  forall i j : nat, (i < NUMDIMENSIONS)%nat -> (j < NUMDIMENSIONS)%nat ->
    entry (calculateJacobian h A calculateDependentVariables J tc x).1.1 i j
    = analyticJacobian A x i j.
Proof.
  intros Hh HA HlA Hx Hlx HJ Htc i j Hi Hj.
  rewrite (calculateJacobian_columns h A _ J tc x
             calculateDependentVariables_overwrites HJ Htc).
  pose proof (fun i j => real_table_entry A i j HA) as Him.
  pose proof (fun k => all_real_nth x k Hx) as Hxk.
  destruct A as [|c0 [|c1 [|c2 [|]]]]; try discriminate.
  destruct x as [|x0 [|x1 [|x2 [|]]]]; try discriminate.
  pose proof (Hxk 0%nat) as X0. pose proof (Hxk 1%nat) as X1.
  pose proof (Hxk 2%nat) as X2.
  pose proof (Him 0%nat 0%nat) as H00. pose proof (Him 0%nat 1%nat) as H01.
  pose proof (Him 0%nat 2%nat) as H02.
  pose proof (Him 1%nat 0%nat) as H10. pose proof (Him 1%nat 1%nat) as H11.
  pose proof (Him 1%nat 2%nat) as H12.
  pose proof (Him 2%nat 0%nat) as H20. pose proof (Him 2%nat 1%nat) as H21.
  pose proof (Him 2%nat 2%nat) as H22.
  unfold Centry in *.
  simpl in X0, X1, X2, H00, H01, H02, H10, H11, H12, H20, H21, H22.
  assert (Hh0 : h <> 0) by lra.
  unfold NUMDIMENSIONS in Hi, Hj.
  destruct i as [|[|[|i]]]; try lia;
    destruct j as [|[|[|j]]]; try lia;
    unfold entry, analyticJacobian, Centry, modelValue, perturbed,
      calculateDependentVariables, dependentVariable; simpl;
    unfold pow_m1; simpl;
    rewrite ?X0, ?X1, ?X2, ?H00, ?H01, ?H02, ?H10, ?H11, ?H12,
      ?H20, ?H21, ?H22;
    field; exact Hh0.
Qed.

Lemma calculateJacobian_analytic_witness :
  0 < PROBEDISTANCE
  /\ entry (calculateJacobian PROBEDISTANCE mainOffsets
              calculateDependentVariables
              (replicate NUMDIMENSIONS (replicate NUMDIMENSIONS 0))
              (replicate NUMDIMENSIONS C0) mainCurrentGuess).1.1 0 0
     = analyticJacobian mainOffsets mainCurrentGuess 0 0.
Proof.
  assert (Hh : 0 < PROBEDISTANCE).
  { apply Rinv_0_lt_compat, pow_lt. lra. }
  split; [exact Hh|].
  apply (calculateJacobian_analytic PROBEDISTANCE mainOffsets
           (replicate NUMDIMENSIONS (replicate NUMDIMENSIONS 0))
           (replicate NUMDIMENSIONS C0) mainCurrentGuess).
  - exact Hh.
  - exact mainOffsets_real.
  - reflexivity.
  - exact mainCurrentGuess_real.
  - reflexivity.
  - reflexivity.
  - reflexivity.
  - unfold NUMDIMENSIONS. lia.
  - unfold NUMDIMENSIONS. lia.
Defined.

Lemma perturbed_probePoint (h : R) (j : nat) (x : Col (complex R)) :
  length x = NUMDIMENSIONS -> (j < NUMDIMENSIONS)%nat ->
  perturbed h j x = probePoint h j x.
Proof.
  intros Hx Hj.
  destruct x as [|x0 [|x1 [|x2 [|]]]]; try discriminate.
  unfold NUMDIMENSIONS in Hj.
  destruct j as [|[|[|j]]]; try lia;
    unfold perturbed, probePoint, unitVector; simpl;
    f_equal; [|f_equal; [|f_equal]| |f_equal; [|f_equal]| |f_equal; [|f_equal]];
    apply complex_eq; simpl; ring.
Qed.

Lemma scaled_imag_nth (h : R) (v : Col (complex R)) (k : nat) :
  nth k (map (fun y => y * / h) (imag v)) 0 = im (nth k v C0) / h.
Proof.
  revert k. induction v as [|z v IH]; intros [|k]; simpl;
    try (unfold Rdiv; ring).
  apply IH.
Qed.

(** C1: for every guess x of NUMDIMENSIONS entries (a real one in
    particular) and every model that fills its buffer, calculateJacobian
    returns the Jacobian with J[k][j] = Im(Model(x + i h e_j))[k] / h in
    every row k and column j, the targets buffer holding Model(x), and the
    guess as it was at entry. *)
Theorem calculateJacobian_complex_step (h : R) (A : Mat (complex R))
    (model : Mat (complex R) -> Col (complex R) -> Col (complex R)
             -> Col (complex R))
    (J : Mat R) (tc x : Col (complex R)) :
  overwrites NUMDIMENSIONS model ->
  length x = NUMDIMENSIONS ->
  length J = NUMDIMENSIONS -> length tc = NUMDIMENSIONS ->
  let '(J', tc', x') := calculateJacobian h A model J tc x in
  (forall k j : nat, (k < NUMDIMENSIONS)%nat -> (j < NUMDIMENSIONS)%nat ->
     entry J' k j = im (nth k (modelValue model A (probePoint h j x)) C0) / h)
  /\ tc' = modelValue model A x
  /\ x' = x.
Proof.
  intros Hm Hx HJ Htc.
  rewrite (calculateJacobian_columns h A model J tc x Hm HJ Htc).
  split; [|split; reflexivity].
  intros k j Hk Hj.
  rewrite <- (perturbed_probePoint h j x Hx Hj).
  unfold NUMDIMENSIONS in Hj.
  destruct j as [|[|[|j]]]; try lia; unfold entry; simpl;
    apply scaled_imag_nth.
Qed.

Lemma calculateJacobian_complex_step_witness :
  let '(J', tc', x') :=
    calculateJacobian PROBEDISTANCE mainOffsets calculateDependentVariables
      (replicate NUMDIMENSIONS (replicate NUMDIMENSIONS 0))
      (replicate NUMDIMENSIONS C0) mainCurrentGuess in
  (forall k j : nat, (k < NUMDIMENSIONS)%nat -> (j < NUMDIMENSIONS)%nat ->
     entry J' k j
     = im (nth k (modelValue calculateDependentVariables mainOffsets
                    (probePoint PROBEDISTANCE j mainCurrentGuess)) C0)
       / PROBEDISTANCE)
  /\ tc' = modelValue calculateDependentVariables mainOffsets mainCurrentGuess
  /\ x' = mainCurrentGuess.
Proof.
  apply (calculateJacobian_complex_step PROBEDISTANCE mainOffsets
           calculateDependentVariables
           (replicate NUMDIMENSIONS (replicate NUMDIMENSIONS 0))
           (replicate NUMDIMENSIONS C0) mainCurrentGuess).
  - exact calculateDependentVariables_overwrites.
  - reflexivity.
  - reflexivity.
  - reflexivity.
Defined.

Lemma sum_of_squares (Fstar F : Col (complex R)) (a : R) :
  fold_left Rplus (map (fun x => x * x) (real (vsub Fstar F))) a
  = a + fold_right (fun x s => x * x + s) 0 (realDifference F Fstar).
Proof.
  revert F a. induction Fstar as [|t0 Fstar IH]; intros [|f F] a; simpl;
    try ring.
  rewrite IH. ring.
Qed.

(** C9: calculateResidual returns the Euclidean norm of Re(F* - F), which is
    the Euclidean norm of Re(F) - Re(F* ): the square root of the plain sum
    of the squared differences, with no scale and no weight; it is never
    negative. *)
Theorem calculateResidual_euclidean (Fstar F : Col (complex R)) :
  calculateResidual Fstar F = euclidean (realDifference F Fstar)
  /\ 0 <= calculateResidual Fstar F.
Proof.
  split.
  - unfold calculateResidual, norm2, euclidean. simpl.
    rewrite sum_of_squares. f_equal. ring.
  - apply sqrt_pos.
Qed.

End Exact.

(** ** The frame of updateGuess *)

(** C10: updateGuess changes two of the caller's variables: the guess, to
    which the result of the solver is added, and the buffer of real targets,
    overwritten with the real parts of the calculated targets.  The Jacobian,
    the calculated targets and the other variables of main keep their
    values, and two vectors of targets with the same real parts give the same
    update: the imaginary parts are never read. *)
Theorem updateGuess_frame {T : Type} `{Scalar T}
    (solve : Mat T -> Col T -> Col T) (s : State) :
  let s' := stepUpdate solve s in
  currentGuess s'
  = vadd_real (currentGuess s)
      (solve (jacobian s) (vneg (real (targetsCalculated s))))
  /\ realTargetsCalculated s' = real (targetsCalculated s)
  /\ jacobian s' = jacobian s
  /\ targetsCalculated s' = targetsCalculated s
  /\ offsets s' = offsets s
  /\ targetsDesired s' = targetsDesired s
  /\ count s' = count s
  /\ error s' = error s
  /\ (forall g rt rt' tc tc' J, real tc = real tc' ->
        updateGuess solve g rt tc J = updateGuess solve g rt' tc' J).
Proof.
  simpl. repeat split.
  intros g rt rt' tc tc' J Hre. unfold updateGuess. rewrite Hre. reflexivity.
Qed.

(** ** The driver, in exact arithmetic *)

Section ExactDriver.
Local Open Scope R_scope.
Variable solve : Mat R -> Col R -> Col R.
Variable model :
  Mat (complex R) -> Col (complex R) -> Col (complex R) -> Col (complex R).

Lemma vadd_real_all_real (x : Col (complex R)) (d : Col R) :
  all_real x -> all_real (vadd_real x d).
Proof.
  intros Hx. revert d.
  induction Hx as [|z x Hz _ IH]; intros [|a d]; simpl; constructor.
  - simpl. rewrite Hz. simpl. ring.
  - apply IH.
Qed.

Lemma iter_all_real (h : R) (s : State) (n : nat) :
  all_real (currentGuess s) ->
  all_real (currentGuess (Nat.iter n (loopBody solve model h) s)).
Proof.
  intros Hs. induction n as [|n IH]; simpl Nat.iter; [exact Hs|].
  rewrite loopBody_guess. apply vadd_real_all_real, IH.
Qed.

(* the estimator at the guess (2, 2, 2) of main *)
Lemma calculateJacobian_mainCurrentGuess (h : R) (J : Mat R)
    (tc : Col (complex R)) :
  h <> 0 -> length J = NUMDIMENSIONS -> length tc = NUMDIMENSIONS ->
  calculateJacobian h mainOffsets calculateDependentVariables J tc
    mainCurrentGuess
  = ([[2; 4; 4]; [4; 4; 4]; [1; -1; 1]],
     [C_of_real 7; C_of_real 5; C_of_real 9], mainCurrentGuess).
Proof.
  intros Hh HJ Htc.
  rewrite (calculateJacobian_columns h mainOffsets
             calculateDependentVariables J tc mainCurrentGuess
             calculateDependentVariables_overwrites HJ Htc).
  f_equal. f_equal.
  - unfold modelValue, perturbed, calculateDependentVariables,
      dependentVariable.
    simpl. unfold pow_m1. simpl.
    repeat (apply (f_equal2 cons)); try reflexivity; field; exact Hh.
  - unfold modelValue, calculateDependentVariables, dependentVariable.
    simpl. unfold pow_m1, C_of_real. simpl.
    repeat (apply (f_equal2 cons)); try reflexivity;
      apply complex_eq; simpl; ring.
Qed.

(* Cramer's rule solves a system whose determinant is not zero *)
Lemma cramerSolve_solves (M : Mat R) (b : Col R) :
  length M = NUMDIMENSIONS -> Forall (fun c => length c = NUMDIMENSIONS) M ->
  length b = NUMDIMENSIONS -> det3 M <> 0 ->
  mat_vec M (cramerSolve M b) = b.
Proof.
  intros HM Hc Hb Hd.
  destruct M as [|c0 [|c1 [|c2 [|]]]]; try discriminate.
  inversion Hc as [|? ? H0 Hc1]; subst.
  inversion Hc1 as [|? ? H1 Hc2]; subst.
  inversion Hc2 as [|? ? H2 _]; subst.
  destruct c0 as [|a0 [|a1 [|a2 [|]]]]; try discriminate.
  destruct c1 as [|d0 [|d1 [|d2 [|]]]]; try discriminate.
  destruct c2 as [|e0 [|e1 [|e2 [|]]]]; try discriminate.
  destruct b as [|b0 [|b1 [|b2 [|]]]]; try discriminate.
  unfold det3, entry in Hd. simpl in Hd.
  unfold mat_vec, cramerSolve, det3, entry. simpl.
  repeat (apply (f_equal2 cons)); try reflexivity; field; exact Hd.
Qed.

Lemma real_minus_zero (F : Col (complex R)) :
  real (vsub F (replicate (length F) C0)) = real F.
Proof.
  induction F as [|f F IH]; simpl; [reflexivity|].
  f_equal; [ring | exact IH].
Qed.

End ExactDriver.

Section ExactClaims.
Local Open Scope R_scope.
Variable solve : Mat R -> Col R -> Col R.
Variable model :
  Mat (complex R) -> Col (complex R) -> Col (complex R) -> Col (complex R).

(** C2 (as amended): in every turn of the loop the update is the solver's
    answer to the system J d = -Re(F), with the Jacobian J and the
    unperturbed targets F that calculateJacobian returned, and the new guess
    is x + d.  The desired targets F* are not subtracted; when they are the
    zero vector, as in main, -Re(F) is -Re(F - F* ). *)
Theorem loopBody_newton_step (h : R) (s : State) :
  let '(J, F, x) :=
    calculateJacobian h (offsets s) model (jacobian s) (targetsCalculated s)
      (currentGuess s) in
  currentGuess (loopBody solve model h s)
  = vadd_real (currentGuess s) (solve J (vneg (real F)))
  /\ x = currentGuess s
  /\ (overwrites NUMDIMENSIONS model ->
      length (jacobian s) = NUMDIMENSIONS ->
      length (targetsCalculated s) = NUMDIMENSIONS ->
      F = modelValue model (offsets s) (currentGuess s))
  /\ (targetsDesired s = replicate (length F) C0 ->
      vneg (real F) = vneg (real (vsub F (targetsDesired s)))).
Proof.
  pose proof (loopBody_guess solve model h s) as Hg.
  pose proof (calculateJacobian_guess h (offsets s) model (jacobian s)
                (targetsCalculated s) (currentGuess s)) as Hx.
  pose proof (calculateJacobian_columns h (offsets s) model (jacobian s)
                (targetsCalculated s) (currentGuess s)) as Hc.
  unfold stepJacobian in Hg.
  destruct (calculateJacobian h (offsets s) model (jacobian s)
              (targetsCalculated s) (currentGuess s)) as [[J F] x].
  simpl in Hg, Hx. repeat split.
  - exact Hg.
  - exact Hx.
  - intros Hm HJ Htc. specialize (Hc Hm HJ Htc). congruence.
  - intros Hz. rewrite Hz, real_minus_zero. reflexivity.
Qed.

(** C5: from a real initial guess, the guess is real when each turn of
    the loop of main begins, whatever the solver returns (updateGuess adds
    real numbers); and while calculateJacobian works on column j of a real
    guess x, from the perturbation to the restoration, coordinate j alone
    has a nonzero imaginary part, h, after which x is back. *)
Theorem guess_real_invariant (h : R) (A : Mat (complex R))
    (Fstar x0 : Col (complex R)) :
  0 < h -> all_real x0 ->
  (forall n : nat,
     all_real (currentGuess
                 (Nat.iter n (loopBody solve model h)
                    (initialState A Fstar x0))))
  /\ (forall (g : Col (complex R)) (rt : Col R) (tc : Col (complex R))
             (J : Mat R),
        all_real g -> all_real (updateGuess solve g rt tc J).1)
  /\ (forall (J : Mat R) (tc x : Col (complex R)) (j : nat),
        all_real x -> length x = NUMDIMENSIONS -> (j < NUMDIMENSIONS)%nat ->
        let s := atColumn h A model (jacobianVars J tc x) j in
        let p := perturb h j s in
        myCurrentGuess s = x
        /\ im (nth j (myCurrentGuess p) C0) = h
        /\ h <> 0
        /\ (forall k : nat, k <> j -> im (nth k (myCurrentGuess p) C0) = 0)
        /\ myCurrentGuess (fillColumn h j (evaluate A model p))
           = myCurrentGuess p
        /\ myCurrentGuess (jacobianColumn h A model s j) = x).
Proof.
  intros Hh Hx0. split; [|split].
  - intros n. apply iter_all_real. exact Hx0.
  - intros g rt tc J Hg. apply vadd_real_all_real. exact Hg.
  - intros J tc x j Hx Hlx Hj s p.
    assert (Hs : myCurrentGuess s = x).
    { exact (atColumn_guess h A model (jacobianVars J tc x) j). }
    assert (Hp : myCurrentGuess p = perturbed h j x).
    { unfold p, perturbed. simpl. rewrite Hs. reflexivity. }
    pose proof (fun k => all_real_nth x k Hx) as Hxk.
    split; [exact Hs|].
    split.
    { rewrite Hp. unfold perturbed.
      rewrite nth_lookup, list_lookup_insert_eq by lia.
      simpl. rewrite Hxk. simpl. ring. }
    split; [lra|].
    split.
    { intros k Hkj. rewrite Hp. unfold perturbed.
      rewrite nth_lookup, list_lookup_insert_ne, <- nth_lookup by auto.
      apply Hxk. }
    split; [reflexivity|].
    rewrite jacobianColumn_guess. exact Hs.
Qed.

(** C6: for every cap K >= 0 (K >= 1 in particular) and every tolerance,
    the loop of main returns after n <= K turns; each turn was made with
    count < K and error > eps; on return error <= eps or count = K.  The
    program's own values are K = 9 and eps = 10^-4. *)
Theorem newtonRaphson_terminates (h : R) (K : Z) (eps : R)
    (A : Mat (complex R)) (Fstar x0 : Col (complex R)) :
  (0 <= K)%Z ->
  exists n : nat,
    let turn k := Nat.iter k (loopBody solve model h)
                    (initialState A Fstar x0) in
    newtonRaphson solve model h K eps A Fstar x0 = Some (turn n)
    /\ (Z.of_nat n <= K)%Z
    /\ count (turn n) = Z.of_nat n
    /\ (forall k : nat, (k < n)%nat ->
          (count (turn k) < K)%Z /\ error (turn k) > eps)
    /\ (error (turn n) <= eps \/ count (turn n) = K)
    /\ MAXITERATIONS = 9%Z
    /\ ERRORTOLLERANCE = 1 / 10 ^ 4.
Proof.
  intros HK.
  destruct (while_iter solve model h K eps (Z.to_nat K)
              (initialState A Fstar x0)) as (n & Hw & Hn & Hlt & Hex).
  { simpl. lia. }
  exists n. cbv zeta.
  assert (Hc : forall k, count (Nat.iter k (loopBody solve model h)
                                  (initialState A Fstar x0)) = Z.of_nat k).
  { intros k. rewrite iter_count. simpl. lia. }
  split; [exact Hw|].
  split; [lia|].
  split; [apply Hc|].
  split.
  { intros k Hk. specialize (Hlt k Hk). unfold loopTest in Hlt.
    apply andb_prop in Hlt as [H1 H2]. split.
    - apply Z.ltb_lt. exact H1.
    - simpl in H2. apply bool_decide_eq_true in H2. exact H2. }
  split.
  { unfold loopTest in Hex. apply andb_false_iff in Hex as [H1 | H2].
    - right. apply Z.ltb_ge in H1. rewrite Hc in *. lia.
    - left. simpl in H2. apply bool_decide_eq_false in H2. lra. }
  split; [reflexivity|].
  unfold ERRORTOLLERANCE. simpl. unfold Rdiv. ring.
Qed.

(** C8 (as amended): when the loop of main is reached the count is 0, the
    guess is the initial guess and the error is 1.0E5, not +infinity: the
    loop is entered for every cap K >= 1 and every tolerance below 1.0E5, and
    for no tolerance from 1.0E5 on. *)
Theorem initialState_start (h : R) (K : Z) (eps : R)
    (A : Mat (complex R)) (Fstar x0 : Col (complex R)) :
  count (initialState A Fstar x0) = 0%Z
  /\ currentGuess (initialState A Fstar x0) = x0
  /\ error (initialState A Fstar x0) = 10 ^ 5
  /\ ((1 <= K)%Z -> eps < 10 ^ 5 ->
      loopTest K eps (initialState A Fstar x0) = true)
  /\ (10 ^ 5 <= eps ->
      newtonRaphson solve model h K eps A Fstar x0
      = Some (initialState A Fstar x0)).
Proof.
  split; [reflexivity|]. split; [reflexivity|]. split; [reflexivity|].
  split.
  - intros HK He. unfold loopTest. simpl.
    apply andb_true_intro. split.
    + apply Z.ltb_lt. lia.
    + apply bool_decide_eq_true. exact He.
  - intros He.
    assert (Ht : loopTest K eps (initialState A Fstar x0) = false).
    { unfold loopTest. simpl. apply andb_false_iff. right.
      apply bool_decide_eq_false. lra. }
    apply while_not_entered. exact Ht.
Qed.

End ExactClaims.

Section ExactInstances.
Local Open Scope R_scope.

Lemma guess_real_invariant_witness :
  (forall n : nat,
     all_real (currentGuess
                 (Nat.iter n (loopBody (T:=R) cramerSolve calculateDependentVariables
                    PROBEDISTANCE)
                    (initialState mainOffsets mainTargetsDesired
                       mainCurrentGuess))))
  /\ (forall (g : Col (complex R)) (rt : Col R) (tc : Col (complex R))
             (J : Mat R),
        all_real g -> all_real (updateGuess cramerSolve g rt tc J).1)
  /\ (forall (J : Mat R) (tc x : Col (complex R)) (j : nat),
        all_real x -> length x = NUMDIMENSIONS -> (j < NUMDIMENSIONS)%nat ->
        let s := atColumn PROBEDISTANCE mainOffsets calculateDependentVariables
                   (jacobianVars J tc x) j in
        let p := perturb PROBEDISTANCE j s in
        myCurrentGuess s = x
        /\ im (nth j (myCurrentGuess p) C0) = PROBEDISTANCE
        /\ PROBEDISTANCE <> 0
        /\ (forall k : nat, k <> j -> im (nth k (myCurrentGuess p) C0) = 0)
        /\ myCurrentGuess (fillColumn PROBEDISTANCE j
                             (evaluate mainOffsets calculateDependentVariables p))
           = myCurrentGuess p
        /\ myCurrentGuess (jacobianColumn PROBEDISTANCE mainOffsets
                             calculateDependentVariables s j)
           = x).
Proof.
  apply (guess_real_invariant cramerSolve calculateDependentVariables
           PROBEDISTANCE mainOffsets mainTargetsDesired
           mainCurrentGuess).
  - apply Rinv_0_lt_compat, pow_lt. lra.
  - exact mainCurrentGuess_real.
Defined.

Lemma newtonRaphson_terminates_witness :
  exists n : nat,
    let turn k := Nat.iter k (loopBody (T:=R) cramerSolve calculateDependentVariables
                    PROBEDISTANCE)
                    (initialState mainOffsets mainTargetsDesired
                       mainCurrentGuess) in
    newtonRaphson (T:=R) cramerSolve calculateDependentVariables
      PROBEDISTANCE
      MAXITERATIONS ERRORTOLLERANCE
      mainOffsets mainTargetsDesired mainCurrentGuess = Some (turn n)
    /\ (Z.of_nat n <= MAXITERATIONS)%Z
    /\ count (turn n) = Z.of_nat n
    /\ (forall k : nat, (k < n)%nat ->
          (count (turn k) < MAXITERATIONS)%Z
          /\ error (turn k) > ERRORTOLLERANCE)
    /\ (error (turn n) <= ERRORTOLLERANCE \/ count (turn n) = MAXITERATIONS)
    /\ MAXITERATIONS = 9%Z
    /\ ERRORTOLLERANCE = 1 / 10 ^ 4.
Proof.
  apply (newtonRaphson_terminates cramerSolve calculateDependentVariables
           PROBEDISTANCE MAXITERATIONS ERRORTOLLERANCE
           mainOffsets mainTargetsDesired mainCurrentGuess).
  unfold MAXITERATIONS. lia.
Defined.

(** C2, the claim as stated fails: at the guess (2, 2, 2) of main, with
    the desired targets F* = (1, 0, 0) in place of zero, the loop still adds
    the solution of J d = -F = (-7, -5, -9), which is not the solution of
    J d = -(F - F* ) = (-6, -5, -9). *)
Lemma update_ignores_desired_targets :
  let s := initialState mainOffsets [C_of_real 1; C0; C0] mainCurrentGuess in
  let '(J, F, x) :=
    calculateJacobian PROBEDISTANCE (offsets s) calculateDependentVariables
      (jacobian s) (targetsCalculated s) (currentGuess s) in
  J = [[2; 4; 4]; [4; 4; 4]; [1; -1; 1]]
  /\ F = [C_of_real 7; C_of_real 5; C_of_real 9]
  /\ mat_vec J (cramerSolve J [-7; -5; -9]) = [-7; -5; -9]
  /\ vneg (real (vsub F (targetsDesired s))) = [-6; -5; -9]
  /\ currentGuess
       (loopBody cramerSolve calculateDependentVariables PROBEDISTANCE s)
     = vadd_real (currentGuess s) (cramerSolve J [-7; -5; -9])
  /\ currentGuess
       (loopBody cramerSolve calculateDependentVariables PROBEDISTANCE s)
     <> vadd_real (currentGuess s)
          (cramerSolve J (vneg (real (vsub F (targetsDesired s))))).
Proof.
  intros s.
  assert (Hh : PROBEDISTANCE <> 0).
  { apply Rinv_neq_0_compat, pow_nonzero. lra. }
  assert (HJ : calculateJacobian PROBEDISTANCE (offsets s)
                 calculateDependentVariables (jacobian s)
                 (targetsCalculated s) (currentGuess s)
               = ([[2; 4; 4]; [4; 4; 4]; [1; -1; 1]],
                  [C_of_real 7; C_of_real 5; C_of_real 9],
                  mainCurrentGuess)).
  { exact (calculateJacobian_mainCurrentGuess PROBEDISTANCE
             (jacobian s) (targetsCalculated s) Hh eq_refl eq_refl). }
  assert (Hg : currentGuess
                 (loopBody cramerSolve calculateDependentVariables
                    PROBEDISTANCE s)
               = vadd_real (currentGuess s)
                   (cramerSolve [[2; 4; 4]; [4; 4; 4]; [1; -1; 1]]
                      [-7; -5; -9])).
  { rewrite loopBody_guess. unfold stepJacobian. rewrite HJ.
    unfold vneg, real. simpl. reflexivity. }
  rewrite HJ.
  split; [reflexivity|]. split; [reflexivity|].
  split.
  { apply cramerSolve_solves; try reflexivity.
    - repeat constructor.
    - unfold det3, entry. simpl. lra. }
  split.
  { unfold vneg, real, vsub. simpl.
    repeat (apply (f_equal2 cons)); try reflexivity; lra. }
  split; [exact Hg|].
  rewrite Hg. intros Heq.
  apply (f_equal (fun l => re (nth 0 l C0))) in Heq.
  unfold cramerSolve, det3, entry in Heq. simpl in Heq. lra.
Qed.

(** C8, the claim as stated fails: the error starts at 1.0E5, so with the
    tolerance 2.0E5 the test of the loop is false at once and main's loop
    returns its initial state, count = 0, whatever the solver. *)
Lemma loop_not_entered_for_large_tolerance :
  0 < 2 * 10 ^ 5
  /\ error (initialState mainOffsets mainTargetsDesired mainCurrentGuess)
     < 2 * 10 ^ 5
  /\ loopTest MAXITERATIONS (2 * 10 ^ 5)
       (initialState mainOffsets mainTargetsDesired mainCurrentGuess) = false
  /\ (forall solve : Mat R -> Col R -> Col R,
        newtonRaphson solve calculateDependentVariables PROBEDISTANCE
          MAXITERATIONS (2 * 10 ^ 5) mainOffsets mainTargetsDesired
          mainCurrentGuess
        = Some (initialState mainOffsets mainTargetsDesired
                  mainCurrentGuess)).
Proof.
  assert (Ht : loopTest MAXITERATIONS (2 * 10 ^ 5)
                 (initialState mainOffsets mainTargetsDesired
                    mainCurrentGuess) = false).
  { unfold loopTest. simpl. apply bool_decide_eq_false. lra. }
  split; [lra|]. split; [simpl; lra|]. split; [exact Ht|].
  intros solve. apply while_not_entered. exact Ht.
Qed.

End ExactInstances.

(** ** Binary64: non-finite values *)

Section Binary64.
Local Open Scope float_scope.

(* every comparison with NaN is false *)
Lemma ltb_nan (x : float) : (x <? nan) = false.
Proof.
  rewrite FloatAxioms.ltb_spec.
  change (Prim2SF nan) with S754_nan.
  unfold SFltb, SFcompare. destruct (Prim2SF x) as [| | |]; reflexivity.
Qed.

(* every finite number, and -Inf, is below +Inf *)
Lemma ltb_infinity (x : float) :
  is_nan x = false -> x <> infinity -> (x <? infinity) = true.
Proof.
  intros Hn Hi.
  rewrite FloatAxioms.ltb_spec.
  change (Prim2SF infinity) with (S754_infinity false).
  destruct (Prim2SF x) as [s|s| |s m e] eqn:E.
  - reflexivity.
  - destruct s; [reflexivity|].
    exfalso. apply Hi. rewrite <- (SF2Prim_Prim2SF x), E. reflexivity.
  - exfalso. unfold is_nan in Hn. rewrite FloatAxioms.eqb_spec, E in Hn. discriminate.
  - reflexivity.
Qed.

(* the program itself, run in binary64 with Cramer's rule as the solver:
   nine turns, the last one reaching the tolerance *)
Example main_binary64 :
  option_map count (main cramerSolve) = Some 9%Z
  /\ option_map (fun s => error s <? ERRORTOLLERANCE) (main cramerSolve)
     = Some true
  /\ option_map (fun s => real (currentGuess s)) (main cramerSolve)
     = Some [1; 0.0048828125000000043; 0].
Proof. repeat split; vm_compute; reflexivity. Qed.

End Binary64.

(** ** More of the program, in every arithmetic *)

Section MoreGeneric.
Context {T : Type} `{Scalar T}.

Lemma dependentVariable_insert (A : Mat (complex T))
    (x tc : Col (complex T)) (i : nat) :
  dependentVariable A x tc i = <[i := targetOf A x i]> tc.
Proof.
  unfold dependentVariable, targetOf.
  destruct (decide (i < length tc)%nat) as [Hi | Hi].
  - rewrite list_insert_insert_eq.
    rewrite nth_lookup, list_lookup_insert_eq by exact Hi. reflexivity.
  - rewrite !list_insert_ge by (rewrite ?length_insert; lia). reflexivity.
Qed.

Lemma calculateDependentVariables_inserts (A : Mat (complex T))
    (x b : Col (complex T)) :
  calculateDependentVariables A x b
  = <[2 := targetOf A x 2]>
      (<[1 := targetOf A x 1]> (<[0 := targetOf A x 0]> b)).
Proof.
  unfold calculateDependentVariables. simpl.
  rewrite !dependentVariable_insert. reflexivity.
Qed.

(** X1: calculateDependentVariables writes the entries 0, 1 and 2 of its
    buffer and nothing else.  Whatever the length of the buffer, it keeps
    that length, every entry from NUMDIMENSIONS on keeps its value, and an
    entry that is written gets a value that does not depend on what the
    buffer held before (in binary64 as in exact arithmetic). *)
Theorem calculateDependentVariables_frame (A : Mat (complex T))
    (x b : Col (complex T)) :
  length (calculateDependentVariables A x b) = length b
  /\ (forall k : nat, (NUMDIMENSIONS <= k)%nat ->
        nth k (calculateDependentVariables A x b) C0 = nth k b C0)
  /\ (forall i : nat, (i < NUMDIMENSIONS)%nat -> (i < length b)%nat ->
        nth i (calculateDependentVariables A x b) C0 = targetOf A x i).
Proof.
  rewrite calculateDependentVariables_inserts. split; [|split].
  - rewrite !length_insert. reflexivity.
  - unfold NUMDIMENSIONS. intros k Hk.
    rewrite !nth_lookup, !list_lookup_insert_ne by lia. reflexivity.
  - unfold NUMDIMENSIONS. intros i Hi Hb. rewrite nth_lookup.
    destruct i as [|[|[|i]]]; try lia.
    + rewrite !list_lookup_insert_ne by lia.
      rewrite list_lookup_insert_eq by exact Hb. reflexivity.
    + rewrite list_lookup_insert_ne by lia.
      rewrite list_lookup_insert_eq by (rewrite length_insert; exact Hb).
      reflexivity.
    + rewrite list_lookup_insert_eq by (rewrite !length_insert; exact Hb).
      reflexivity.
Qed.

(** X2: calculateJacobian gives the guess back exactly as it received it,
    for every model, every probe distance and every size of the buffers, and
    in every arithmetic, binary64 included: the probed coordinate is saved
    and written back, not recomputed.  The guess is also the original one
    each time the loop reaches a new column. *)
Theorem calculateJacobian_restores_guess (h : T) (A : Mat (complex T))
    (model : Mat (complex T) -> Col (complex T) -> Col (complex T)
             -> Col (complex T))
    (J : Mat T) (tc x : Col (complex T)) :
  (calculateJacobian h A model J tc x).2 = x
  /\ (forall j : nat,
        myCurrentGuess (atColumn h A model (jacobianVars J tc x) j) = x).
Proof.
  split.
  - apply calculateJacobian_guess.
  - intros j. exact (atColumn_guess h A model (jacobianVars J tc x) j).
Qed.

Lemma jacobianOf_shape (h : T) (A : Mat (complex T))
    (model : Mat (complex T) -> Col (complex T) -> Col (complex T)
             -> Col (complex T))
    (x : Col (complex T)) :
  overwrites NUMDIMENSIONS model ->
  length (jacobianOf h model A x) = NUMDIMENSIONS
  /\ Forall (fun c => length c = NUMDIMENSIONS) (jacobianOf h model A x).
Proof.
  intros Hm. split; [reflexivity|].
  assert (Hl : forall y, length (modelValue model A y) = NUMDIMENSIONS).
  { intros y.
    exact (proj2 (Hm A y (replicate NUMDIMENSIONS C0)
                    (replicate NUMDIMENSIONS C0)
                    (length_replicate _ _) (length_replicate _ _))). }
  unfold jacobianOf. simpl.
  repeat constructor; unfold imag; rewrite !length_map; apply Hl.
Qed.

(** X3: calculateJacobian rebuilds its outputs from nothing: the Jacobian
    and the targets it returns do not depend on what the two buffers held
    at entry, the Jacobian has NUMDIMENSIONS columns of NUMDIMENSIONS
    entries and the targets NUMDIMENSIONS entries. *)
Theorem calculateJacobian_rebuilds (h : T) (A : Mat (complex T))
    (model : Mat (complex T) -> Col (complex T) -> Col (complex T)
             -> Col (complex T))
    (J J' : Mat T) (tc tc' x : Col (complex T)) :
  overwrites NUMDIMENSIONS model ->
  length J = NUMDIMENSIONS -> length J' = NUMDIMENSIONS ->
  length tc = NUMDIMENSIONS -> length tc' = NUMDIMENSIONS ->
  calculateJacobian h A model J tc x = calculateJacobian h A model J' tc' x
  /\ length (calculateJacobian h A model J tc x).1.1 = NUMDIMENSIONS
  /\ Forall (fun c => length c = NUMDIMENSIONS)
       (calculateJacobian h A model J tc x).1.1
  /\ length (calculateJacobian h A model J tc x).1.2 = NUMDIMENSIONS.
Proof.
  intros Hm HJ HJ' Htc Htc'.
  rewrite (calculateJacobian_columns h A model J tc x Hm HJ Htc).
  rewrite (calculateJacobian_columns h A model J' tc' x Hm HJ' Htc').
  fold (jacobianOf h model A x).
  destruct (jacobianOf_shape h A model x Hm) as [H1 H2].
  repeat split; auto.
  exact (proj2 (Hm A x (replicate NUMDIMENSIONS C0)
                  (replicate NUMDIMENSIONS C0)
                  (length_replicate _ _) (length_replicate _ _))).
Qed.

Lemma real_vsub (a b : Col (complex T)) :
  real (vsub a b) = zip_with s_sub (real a) (real b).
Proof.
  revert b. induction a as [|z a IH]; intros [|w b]; simpl; try reflexivity.
  f_equal. apply IH.
Qed.

(** X4: calculateResidual reads real parts only: two pairs of vectors with
    the same real parts have the same residual, whatever their imaginary
    parts, in every arithmetic. *)
Theorem calculateResidual_real_parts_only
    (Fstar Fstar' F F' : Col (complex T)) :
  real Fstar = real Fstar' -> real F = real F' ->
  calculateResidual Fstar F = calculateResidual Fstar' F'.
Proof.
  intros H1 H2. unfold calculateResidual.
  rewrite !real_vsub, H1, H2. reflexivity.
Qed.

End MoreGeneric.

Lemma calculateJacobian_rebuilds_witness :
  calculateJacobian (T:=float) PROBEDISTANCE mainOffsets
    calculateDependentVariables
    (replicate NUMDIMENSIONS (replicate NUMDIMENSIONS s_zero))
    (replicate NUMDIMENSIONS C0) mainCurrentGuess
  = calculateJacobian PROBEDISTANCE mainOffsets calculateDependentVariables
      [[1; 2; 3]; [4; 5; 6]; [7; 8; 9]]%float
      (replicate NUMDIMENSIONS (C_of_real infinity)) mainCurrentGuess
  /\ length (calculateJacobian (T:=float) PROBEDISTANCE mainOffsets
               calculateDependentVariables
               (replicate NUMDIMENSIONS (replicate NUMDIMENSIONS s_zero))
               (replicate NUMDIMENSIONS C0) mainCurrentGuess).1.1
     = NUMDIMENSIONS
  /\ Forall (fun c => length c = NUMDIMENSIONS)
       (calculateJacobian (T:=float) PROBEDISTANCE mainOffsets
          calculateDependentVariables
          (replicate NUMDIMENSIONS (replicate NUMDIMENSIONS s_zero))
          (replicate NUMDIMENSIONS C0) mainCurrentGuess).1.1
  /\ length (calculateJacobian (T:=float) PROBEDISTANCE mainOffsets
               calculateDependentVariables
               (replicate NUMDIMENSIONS (replicate NUMDIMENSIONS s_zero))
               (replicate NUMDIMENSIONS C0) mainCurrentGuess).1.2
     = NUMDIMENSIONS.
Proof.
  apply (calculateJacobian_rebuilds (T:=float) PROBEDISTANCE mainOffsets
           calculateDependentVariables
           (replicate NUMDIMENSIONS (replicate NUMDIMENSIONS s_zero))
           [[1; 2; 3]; [4; 5; 6]; [7; 8; 9]]%float
           (replicate NUMDIMENSIONS C0)
           (replicate NUMDIMENSIONS (C_of_real infinity)) mainCurrentGuess).
  - exact calculateDependentVariables_overwrites.
  - reflexivity.
  - reflexivity.
  - reflexivity.
  - reflexivity.
Defined.

Lemma calculateResidual_real_parts_only_witness :
  calculateResidual (T:=float)
    [mkC 0 1; mkC 0 2; mkC 0 3]%float [mkC 3 0; mkC 4 0; mkC 0 0]%float
  = calculateResidual
      [mkC 0 0; mkC 0 0; mkC 0 0]%float [mkC 3 7; mkC 4 nan; mkC 0 5]%float.
Proof.
  apply (calculateResidual_real_parts_only (T:=float)
           [mkC 0 1; mkC 0 2; mkC 0 3]%float
           [mkC 0 0; mkC 0 0; mkC 0 0]%float
           [mkC 3 0; mkC 4 0; mkC 0 0]%float
           [mkC 3 7; mkC 4 nan; mkC 0 5]%float).
  - reflexivity.
  - reflexivity.
Defined.

Section MoreDriver.
Context {T : Type} `{Scalar T}.
Variable solve : Mat T -> Col T -> Col T.
Variable model :
  Mat (complex T) -> Col (complex T) -> Col (complex T) -> Col (complex T).
Variables (h : T) (K : Z) (eps : T).

Lemma modelValue_length (A : Mat (complex T)) (x : Col (complex T)) :
  overwrites NUMDIMENSIONS model ->
  length (modelValue model A x) = NUMDIMENSIONS.
Proof.
  intros Hm.
  exact (proj2 (Hm A x (replicate NUMDIMENSIONS C0)
                  (replicate NUMDIMENSIONS C0)
                  (length_replicate _ _) (length_replicate _ _))).
Qed.

(* one turn of the loop, written out *)
Lemma loopBody_record (s : State) :
  overwrites NUMDIMENSIONS model ->
  length (jacobian s) = NUMDIMENSIONS ->
  length (targetsCalculated s) = NUMDIMENSIONS ->
  loopBody solve model h s
  = {| offsets := offsets s;
       targetsDesired := targetsDesired s;
       targetsCalculated :=
         modelValue model (offsets s)
           (newtonStep solve h model (offsets s) (currentGuess s));
       realTargetsCalculated :=
         real (modelValue model (offsets s) (currentGuess s));
       currentGuess := newtonStep solve h model (offsets s) (currentGuess s);
       jacobian := jacobianOf h model (offsets s) (currentGuess s);
       count := (count s + 1)%Z;
       error :=
         calculateResidual (targetsDesired s)
           (modelValue model (offsets s)
              (newtonStep solve h model (offsets s) (currentGuess s))) |}.
Proof.
  intros Hm HJ Htc.
  unfold loopBody, stepJacobian.
  rewrite (calculateJacobian_columns h (offsets s) model (jacobian s)
             (targetsCalculated s) (currentGuess s) Hm HJ Htc).
  fold (jacobianOf h model (offsets s) (currentGuess s)).
  unfold stepUpdate, updateGuess, stepScore.
  cbn [offsets targetsDesired targetsCalculated realTargetsCalculated
       currentGuess jacobian count error].
  fold (newtonStep solve h model (offsets s) (currentGuess s)).
  assert (E : model (offsets s)
                (newtonStep solve h model (offsets s) (currentGuess s))
                (modelValue model (offsets s) (currentGuess s))
              = modelValue model (offsets s)
                  (newtonStep solve h model (offsets s) (currentGuess s))).
  { apply Hm; [apply modelValue_length; exact Hm | apply length_replicate]. }
  rewrite E. reflexivity.
Qed.

Lemma iter_frame (n : nat) (s : State) :
  offsets (Nat.iter n (loopBody solve model h) s) = offsets s
  /\ targetsDesired (Nat.iter n (loopBody solve model h) s)
     = targetsDesired s.
Proof.
  induction n as [|n [IH1 IH2]]; simpl Nat.iter; [split; reflexivity|].
  split; [exact IH1 | exact IH2].
Qed.

(* the buffers keep their sizes from turn to turn *)
Lemma iter_shapes (n : nat) (s : State) :
  overwrites NUMDIMENSIONS model ->
  length (jacobian s) = NUMDIMENSIONS ->
  length (targetsCalculated s) = NUMDIMENSIONS ->
  length (jacobian (Nat.iter n (loopBody solve model h) s)) = NUMDIMENSIONS
  /\ length (targetsCalculated (Nat.iter n (loopBody solve model h) s))
     = NUMDIMENSIONS.
Proof.
  intros Hm HJ Htc. induction n as [|n [IH1 IH2]]; simpl Nat.iter.
  - split; assumption.
  - rewrite (loopBody_record _ Hm IH1 IH2). simpl. split.
    + reflexivity.
    + apply modelValue_length. exact Hm.
Qed.

(** X5: one turn of the loop of main, for a model that fills its buffer:
    the new guess is the old one plus the solver's answer; the Jacobian
    left in main's variable is the one at the guess before the update, and
    the real targets are those before the update; the calculated targets
    and the error are those of the new guess; count grows by one, offsets
    and desired targets stay, and the two buffers keep their sizes. *)
Theorem loopBody_turn (s : State) :
  overwrites NUMDIMENSIONS model ->
  length (jacobian s) = NUMDIMENSIONS ->
  length (targetsCalculated s) = NUMDIMENSIONS ->
  let A := offsets s in
  let x := currentGuess s in
  let s' := loopBody solve model h s in
  currentGuess s'
  = vadd_real x (solve (jacobianOf h model A x)
                       (vneg (real (modelValue model A x))))
  /\ jacobian s' = jacobianOf h model A x
  /\ realTargetsCalculated s' = real (modelValue model A x)
  /\ targetsCalculated s' = modelValue model A (currentGuess s')
  /\ error s'
     = calculateResidual (targetsDesired s)
         (modelValue model A (currentGuess s'))
  /\ count s' = (count s + 1)%Z
  /\ offsets s' = A
  /\ targetsDesired s' = targetsDesired s
  /\ length (jacobian s') = NUMDIMENSIONS
  /\ length (targetsCalculated s') = NUMDIMENSIONS.
Proof.
  intros Hm HJ Htc A x s'. unfold s'.
  rewrite (loopBody_record s Hm HJ Htc). simpl.
  repeat split; try reflexivity.
  apply modelValue_length. exact Hm.
Qed.

(** X6: what the loop of main returns, for a model that fills its buffer.
    Offsets and desired targets are those given.  Either no turn was made
    and the variables are the initial ones, or the calculated targets are
    the model at the returned guess and the returned error is the residual
    of that guess: the error printed belongs to the guess printed. *)
Theorem newtonRaphson_reports_residual (A : Mat (complex T))
    (Fstar x0 : Col (complex T)) :
  overwrites NUMDIMENSIONS model ->
  exists s : State,
    newtonRaphson solve model h K eps A Fstar x0 = Some s
    /\ offsets s = A
    /\ targetsDesired s = Fstar
    /\ ((count s = 0%Z /\ s = initialState A Fstar x0)
        \/ ((0 < count s)%Z
            /\ targetsCalculated s = modelValue model A (currentGuess s)
            /\ error s
               = calculateResidual Fstar
                   (modelValue model A (currentGuess s)))).
Proof.
  intros Hm.
  destruct (while_iter solve model h K eps (Z.to_nat K)
              (initialState A Fstar x0)) as (n & Hw & _ & _ & _).
  { simpl. lia. }
  exists (Nat.iter n (loopBody solve model h) (initialState A Fstar x0)).
  split; [exact Hw|].
  destruct (iter_frame n (initialState A Fstar x0)) as [Ho Ht].
  split; [exact Ho|]. split; [exact Ht|].
  destruct n as [|n].
  - left. split; reflexivity.
  - right. simpl Nat.iter.
    destruct (iter_frame n (initialState A Fstar x0)) as [Ho' Ht'].
    destruct (iter_shapes n (initialState A Fstar x0) Hm eq_refl eq_refl)
      as [S1 S2].
    rewrite (loopBody_record _ Hm S1 S2). simpl.
    rewrite Ho', Ht'. simpl.
    pose proof (iter_count solve model h n (initialState A Fstar x0)) as Hc.
    simpl in Hc. rewrite Hc.
    split; [lia|]. split; reflexivity.
Qed.

(** X7: the loop of main makes no turn at all exactly when the cap is not
    positive or the starting error 1.0E5 is not above the tolerance; it
    then returns the initial variables, with count = 0. *)
Theorem newtonRaphson_no_turn (A : Mat (complex T))
    (Fstar x0 : Col (complex T)) :
  exists s : State,
    newtonRaphson solve model h K eps A Fstar x0 = Some s
    /\ (count s = 0%Z <-> ((K <= 0)%Z \/ s_gt lit_1_0E5 eps = false))
    /\ (count s = 0%Z -> s = initialState A Fstar x0).
Proof.
  destruct (while_iter solve model h K eps (Z.to_nat K)
              (initialState A Fstar x0)) as (n & Hw & _ & Hlt & Hex).
  { simpl. lia. }
  exists (Nat.iter n (loopBody solve model h) (initialState A Fstar x0)).
  split; [exact Hw|].
  pose proof (iter_count solve model h n (initialState A Fstar x0)) as Hc.
  simpl in Hc. rewrite Hc.
  assert (Ht : loopTest K eps (initialState A Fstar x0) = false
               <-> ((K <= 0)%Z \/ s_gt lit_1_0E5 eps = false)).
  { unfold loopTest. simpl. rewrite andb_false_iff, Z.ltb_ge. tauto. }
  split; [split|].
  - intros Hn. assert (n = 0%nat) by lia. subst n. apply Ht. exact Hex.
  - intros Hk. apply Ht in Hk. destruct n as [|n]; [reflexivity|].
    specialize (Hlt 0%nat ltac:(lia)). simpl in Hlt. congruence.
  - intros Hn. assert (n = 0%nat) by lia. subst n. reflexivity.
Qed.

End MoreDriver.

(** ** More of the program, in exact arithmetic *)

Section MoreExact.
Local Open Scope R_scope.

Lemma all_real_take_drop (v : Col (complex R)) (first last : nat) :
  all_real v -> all_real (subvec first last v).
Proof.
  intros Hv. unfold subvec, all_real in *.
  apply Forall_take, Forall_drop. exact Hv.
Qed.

Lemma all_real_row (A : Mat (complex R)) (i : nat) :
  real_table A -> all_real (row A i).
Proof.
  intros HA. unfold row, all_real.
  induction HA as [|c A Hc _ IH]; simpl; constructor; [|exact IH].
  exact (all_real_nth c i Hc).
Qed.

Lemma all_real_t (v : Col (complex R)) : all_real v -> all_real (t v).
Proof.
  intros Hv. unfold t.
  induction Hv as [|z v Hz _ IH]; simpl; constructor; [|exact IH].
  simpl. rewrite Hz. simpl. ring.
Qed.

Lemma all_real_vsub (u v : Col (complex R)) :
  all_real u -> all_real v -> all_real (vsub u v).
Proof.
  intros Hu. revert v.
  induction Hu as [|z u Hz _ IH]; intros v Hv; destruct Hv as [|w v Hw Hv];
    simpl; constructor.
  - simpl. rewrite Hz, Hw. simpl. ring.
  - apply IH. exact Hv.
Qed.

Lemma all_real_vpow2 (v : Col (complex R)) :
  all_real v -> all_real (vpow2 v).
Proof.
  intros Hv. unfold vpow2.
  induction Hv as [|z v Hz _ IH]; simpl; constructor; [|exact IH].
  simpl. rewrite Hz. simpl. ring.
Qed.

Lemma vsum_real (v : Col (complex R)) : all_real v -> im (vsum v) = 0.
Proof.
  intros Hv. unfold vsum.
  assert (G : forall a : complex R, im a = 0 ->
                im (fold_left Cadd v a) = 0).
  { induction Hv as [|z v Hz _ IH]; intros a Ha; simpl; [exact Ha|].
    apply IH. simpl. rewrite Ha, Hz. simpl. ring. }
  apply G. reflexivity.
Qed.

Lemma targetOf_real (A : Mat (complex R)) (x : Col (complex R)) (i : nat) :
  real_table A -> all_real x -> im (targetOf A x i) = 0.
Proof.
  intros HA Hx. unfold targetOf. simpl.
  rewrite vsum_real.
  - rewrite (all_real_nth x 2 Hx).
    rewrite (all_real_nth (row A i) 2 (all_real_row A i HA)). simpl. ring.
  - apply all_real_vpow2, all_real_vsub.
    + apply all_real_take_drop. exact Hx.
    + apply all_real_t, all_real_take_drop, all_real_row. exact HA.
Qed.

(** X8: at a real point the model is real.  For a real offset table and a
    real guess, of any sizes, every value calculateDependentVariables writes
    has imaginary part 0, so a buffer of NUMDIMENSIONS entries comes back
    real: imaginary parts arise from the probe of calculateJacobian only. *)
Theorem calculateDependentVariables_real (A : Mat (complex R))
    (x b : Col (complex R)) :
  real_table A -> all_real x -> length b = NUMDIMENSIONS ->
  all_real (calculateDependentVariables A x b).
Proof.
  intros HA Hx Hb.
  destruct b as [|b0 [|b1 [|b2 [|]]]]; try discriminate.
  rewrite calculateDependentVariables_inserts. simpl.
  repeat constructor; apply targetOf_real; assumption.
Qed.

Lemma calculateDependentVariables_real_witness :
  all_real (calculateDependentVariables (T:=R) mainOffsets mainCurrentGuess
              (replicate NUMDIMENSIONS (mkC 0 1))).
Proof.
  apply (calculateDependentVariables_real mainOffsets mainCurrentGuess
           (replicate NUMDIMENSIONS (mkC 0 1))).
  - exact mainOffsets_real.
  - exact mainCurrentGuess_real.
  - reflexivity.
Defined.

(* the estimator on the table of main, at a real guess (a, y, z) *)
Lemma calculateJacobian_mainOffsets (h a y z : R) (J : Mat R)
    (tc : Col (complex R)) :
  h <> 0 -> length J = NUMDIMENSIONS -> length tc = NUMDIMENSIONS ->
  calculateJacobian h mainOffsets calculateDependentVariables J tc
    [C_of_real a; C_of_real y; C_of_real z]
  = ([[2 * (a - 1); 2 * a; 2 * a]; [2 * y; 2 * y; 2 * y]; [1; -1; 1]],
     [C_of_real ((a - 1) * (a - 1) + y * y + z);
      C_of_real (a * a + y * y - z - 1);
      C_of_real (a * a + y * y + z - 1)],
     [C_of_real a; C_of_real y; C_of_real z]).
Proof.
  intros Hh HJ Htc.
  rewrite (calculateJacobian_columns h mainOffsets
             calculateDependentVariables J tc _
             calculateDependentVariables_overwrites HJ Htc).
  f_equal. f_equal.
  - unfold modelValue, perturbed, calculateDependentVariables,
      dependentVariable.
    simpl. unfold pow_m1. simpl.
    repeat (apply (f_equal2 cons)); try reflexivity; field; exact Hh.
  - unfold modelValue, calculateDependentVariables, dependentVariable.
    simpl. unfold pow_m1, C_of_real. simpl.
    repeat (apply (f_equal2 cons)); try reflexivity;
      apply complex_eq; simpl; ring.
Qed.

Lemma real_vector (x : Col (complex R)) :
  all_real x -> length x = NUMDIMENSIONS ->
  x = [C_of_real (re (nth 0 x C0)); C_of_real (re (nth 1 x C0));
       C_of_real (re (nth 2 x C0))].
Proof.
  intros Hx Hl.
  destruct x as [|x0 [|x1 [|x2 [|]]]]; try discriminate.
  inversion Hx as [|? ? H0 Hx1]; subst.
  inversion Hx1 as [|? ? H1 Hx2]; subst.
  inversion Hx2 as [|? ? H2 _]; subst.
  simpl. repeat (apply (f_equal2 cons)); try reflexivity;
    apply complex_eq; simpl; auto.
Qed.

(** X9: on the offset table of main the Jacobian that calculateJacobian
    builds at a real guess (x, y, z) has determinant -8 y, and its middle
    column is (2 y, 2 y, 2 y).  It is singular exactly when y = 0, so at
    every point of the plane y = 0, the expected root (1, 0, 0) included,
    the system handed to the solver is singular. *)
Theorem mainOffsets_jacobian_determinant (h : R) (J : Mat R)
    (tc x : Col (complex R)) :
  h <> 0 -> all_real x -> length x = NUMDIMENSIONS ->
  length J = NUMDIMENSIONS -> length tc = NUMDIMENSIONS ->
  let J' := (calculateJacobian h mainOffsets calculateDependentVariables
               J tc x).1.1 in
  let y := re (nth 1 x C0) in
  det3 J' = -8 * y
  /\ nth 1 J' [] = [2 * y; 2 * y; 2 * y]
  /\ (det3 J' = 0 <-> y = 0).
Proof.
  intros Hh Hx Hl HJ Htc J' y.
  pose proof (real_vector x Hx Hl) as E.
  set (a := re (nth 0 x C0)) in E. fold y in E.
  set (z := re (nth 2 x C0)) in E.
  assert (EJ : J' = [[2 * (a - 1); 2 * a; 2 * a]; [2 * y; 2 * y; 2 * y];
                     [1; -1; 1]]).
  { unfold J'. rewrite E.
    rewrite (calculateJacobian_mainOffsets h a y z J tc Hh HJ Htc).
    reflexivity. }
  rewrite EJ.
  assert (Hd : det3 [[2 * (a - 1); 2 * a; 2 * a]; [2 * y; 2 * y; 2 * y];
                     [1; -1; 1]] = -8 * y).
  { unfold det3, entry. simpl. ring. }
  rewrite Hd. split; [reflexivity|]. split; [reflexivity|]. split; lra.
Qed.

Lemma mainOffsets_jacobian_determinant_witness :
  let J' := (calculateJacobian PROBEDISTANCE mainOffsets
               calculateDependentVariables
               (replicate NUMDIMENSIONS (replicate NUMDIMENSIONS 0))
               (replicate NUMDIMENSIONS C0)
               [C_of_real 1; C0; C0]).1.1 in
  let y := re (nth 1 [C_of_real 1; C0; C0] (C0 (T:=R))) in
  det3 J' = -8 * y
  /\ nth 1 J' [] = [2 * y; 2 * y; 2 * y]
  /\ (det3 J' = 0 <-> y = 0).
Proof.
  apply (mainOffsets_jacobian_determinant PROBEDISTANCE
           (replicate NUMDIMENSIONS (replicate NUMDIMENSIONS 0))
           (replicate NUMDIMENSIONS C0) [C_of_real 1; C0; C0]).
  - apply Rinv_neq_0_compat, pow_nonzero. lra.
  - repeat constructor.
  - reflexivity.
  - reflexivity.
  - reflexivity.
Defined.

Lemma calculateResidual_sum (Fstar F : Col (complex R)) :
  calculateResidual Fstar F
  = sqrt (fold_right (fun x s => x * x + s) 0 (realDifference F Fstar)).
Proof.
  unfold calculateResidual, norm2. simpl.
  rewrite sum_of_squares. f_equal. ring.
Qed.

Lemma sum_squares_nonneg (v : Col R) :
  0 <= fold_right (fun x s => x * x + s) 0 v.
Proof. induction v as [|a v IH]; simpl; [lra | nra]. Qed.

Lemma sum_squares_zero (v : Col R) :
  fold_right (fun x s => x * x + s) 0 v = 0 <-> Forall (fun a => a = 0) v.
Proof.
  induction v as [|a v IH]; simpl.
  - split; [constructor | reflexivity].
  - pose proof (sum_squares_nonneg v) as Hv. split.
    + intros Hs. constructor; [nra|]. apply IH. nra.
    + intros Hall. inversion Hall as [|? ? Ha Hr]; subst.
      apply IH in Hr. rewrite Hr. ring.
Qed.

Lemma sum_squares_entry (v : Col R) (k : nat) :
  nth k v 0 * nth k v 0 <= fold_right (fun x s => x * x + s) 0 v.
Proof.
  revert k. induction v as [|a v IH]; intros [|k]; simpl; try lra.
  - pose proof (sum_squares_nonneg v). nra.
  - specialize (IH k). nra.
Qed.

Lemma realDifference_zero (F Fstar : Col (complex R)) :
  length F = length Fstar ->
  (Forall (fun a => a = 0) (realDifference F Fstar) <-> real F = real Fstar).
Proof.
  revert Fstar. induction F as [|f F IH]; intros [|g G] Hl; simpl in *;
    try discriminate.
  - split; [reflexivity | constructor].
  - injection Hl as Hl. specialize (IH G Hl). split.
    + intros Hall. inversion Hall as [|? ? Ha Hr]; subst.
      f_equal; [lra | apply IH; exact Hr].
    + intros Heq. injection Heq as H1 H2.
      constructor; [lra | apply IH; exact H2].
Qed.

Lemma realDifference_nth (F Fstar : Col (complex R)) (k : nat) :
  (k < length F)%nat -> (k < length Fstar)%nat ->
  nth k (realDifference F Fstar) 0
  = re (nth k F C0) - re (nth k Fstar C0).
Proof.
  revert Fstar k. induction F as [|f F IH]; intros [|g G] [|k] H1 H2;
    simpl in *; try lia; try reflexivity.
  apply IH; lia.
Qed.

(** X10: for two vectors of the same length, calculateResidual is 0 exactly
    when the calculated targets and the desired ones have the same real
    parts: a zero error means every equation is met. *)
Theorem calculateResidual_zero_iff (Fstar F : Col (complex R)) :
  length F = length Fstar ->
  (calculateResidual Fstar F = 0 <-> real F = real Fstar).
Proof.
  intros Hl. rewrite calculateResidual_sum.
  rewrite <- (realDifference_zero F Fstar Hl), <- sum_squares_zero.
  pose proof (sum_squares_nonneg (realDifference F Fstar)) as Hn.
  split.
  - intros Hs. apply sqrt_eq_0; assumption.
  - intros Hs. rewrite Hs. apply sqrt_0.
Qed.

Lemma calculateResidual_zero_iff_witness :
  calculateResidual (T:=R) [C_of_real 1; C0] [mkC 1 5; mkC 0 7] = 0
  <-> real [mkC 1 5; mkC 0 7] = real [C_of_real 1; C0].
Proof.
  apply (calculateResidual_zero_iff [C_of_real 1; C0] [mkC 1 5; mkC 0 7]).
  reflexivity.
Defined.

(** X11: the residual bounds every equation: the real part of each
    calculated target is within calculateResidual of the desired one, so a
    solve that ends with error <= eps has met each equation within eps. *)
Theorem calculateResidual_bounds_entry (Fstar F : Col (complex R))
    (k : nat) :
  (k < length F)%nat -> (k < length Fstar)%nat ->
  Rabs (re (nth k F C0) - re (nth k Fstar C0)) <= calculateResidual Fstar F.
Proof.
  intros H1 H2. rewrite calculateResidual_sum.
  rewrite <- (realDifference_nth F Fstar k H1 H2).
  rewrite <- sqrt_Rsqr_abs. apply sqrt_le_1_alt. unfold Rsqr.
  apply sum_squares_entry.
Qed.

Lemma calculateResidual_bounds_entry_witness :
  Rabs (re (nth 1 [mkC 3 0; mkC 4 0; mkC 0 0] C0)
        - re (nth 1 (mainTargetsDesired (T:=R)) C0))
  <= calculateResidual mainTargetsDesired [mkC 3 0; mkC 4 0; mkC 0 0].
Proof.
  apply (calculateResidual_bounds_entry mainTargetsDesired
           [mkC 3 0; mkC 4 0; mkC 0 0] 1).
  - simpl. lia.
  - simpl. lia.
Defined.

End MoreExact.

(** ** The paraboloids, in exact arithmetic *)

Section ParaboloidFacts.
Local Open Scope R_scope.

Lemma closed_forms_mainOffsets (h a y z : R) :
  h <> 0 ->
  jacobianOf h calculateDependentVariables mainOffsets
    [C_of_real a; C_of_real y; C_of_real z]
  = [[2 * (a - 1); 2 * a; 2 * a]; [2 * y; 2 * y; 2 * y]; [1; -1; 1]]
  /\ modelValue calculateDependentVariables mainOffsets
       [C_of_real a; C_of_real y; C_of_real z]
     = [C_of_real ((a - 1) * (a - 1) + y * y + z);
        C_of_real (a * a + y * y - z - 1);
        C_of_real (a * a + y * y + z - 1)].
Proof.
  intros Hh.
  pose proof (calculateJacobian_mainOffsets h a y z
                (replicate NUMDIMENSIONS []) (replicate NUMDIMENSIONS C0)
                Hh eq_refl eq_refl) as E.
  rewrite (calculateJacobian_columns h mainOffsets
             calculateDependentVariables (replicate NUMDIMENSIONS [])
             (replicate NUMDIMENSIONS C0)
             [C_of_real a; C_of_real y; C_of_real z]
             calculateDependentVariables_overwrites eq_refl eq_refl) in E.
  split.
  - exact (f_equal (fun p => fst (fst p)) E).
  - exact (f_equal (fun p => snd (fst p)) E).
Qed.

Lemma newtonStep_mainOffsets (solve : Mat R -> Col R -> Col R)
    (h a y z : R) :
  exactSolver solve -> h <> 0 -> y <> 0 ->
  newtonStep solve h calculateDependentVariables mainOffsets
    [C_of_real a; C_of_real y; C_of_real z]
  = [C_of_real 1; C_of_real (newtonY a y); C_of_real 0].
Proof.
  intros Hs Hh Hy. unfold newtonStep.
  destruct (closed_forms_mainOffsets h a y z Hh) as [EJ EF].
  rewrite EJ, EF.
  set (Jm := [[2 * (a - 1); 2 * a; 2 * a]; [2 * y; 2 * y; 2 * y];
              [1; -1; 1]]).
  set (b := vneg (real [C_of_real ((a - 1) * (a - 1) + y * y + z);
        C_of_real (a * a + y * y - z - 1);
        C_of_real (a * a + y * y + z - 1)])).
  destruct (Hs Jm b) as [Hmv Hl].
  - reflexivity.
  - repeat constructor.
  - reflexivity.
  - unfold Jm, det3, entry. simpl. intros Hd. apply Hy. lra.
  - destruct (solve Jm b) as [|d0 [|d1 [|d2 [|]]]]; try discriminate.
    unfold mat_vec, Jm, b in Hmv. simpl in Hmv.
    injection Hmv as E0 E1 E2.
    assert (D0 : d0 = 1 - a) by lra.
    assert (D2 : d2 = - z) by lra.
    subst d0 d2.
    assert (D1 : 2 * y * d1 = (a - 1) * (a - 1) - y * y) by lra.
    simpl. unfold C_of_real.
    repeat (apply (f_equal2 cons)); try reflexivity;
      apply complex_eq; simpl; try lra.
    unfold newtonY. apply (Rmult_eq_reg_l (2 * y)); [|lra].
    field_simplify; [|exact Hy]. lra.
Qed.

Lemma residual_on_line (y : R) :
  calculateResidual mainTargetsDesired
    (modelValue calculateDependentVariables mainOffsets
       [C_of_real 1; C_of_real y; C_of_real 0])
  = sqrt 3 * (y * y).
Proof.
  assert (H1 : (1 : R) <> 0) by lra.
  destruct (closed_forms_mainOffsets 1 1 y 0 H1) as [_ EF]. rewrite EF.
  unfold calculateResidual, norm2. simpl.
  match goal with
  | |- sqrt ?e = _ => replace e with (3 * ((y * y) * (y * y))) by ring
  end.
  rewrite sqrt_mult by nra. rewrite sqrt_square by nra. reflexivity.
Qed.

Lemma newtonY_line (y : R) : y <> 0 -> newtonY 1 y = y / 2.
Proof. intros Hy. unfold newtonY. field. exact Hy. Qed.

Lemma newtonY_nonzero (a y : R) : y <> 0 -> newtonY a y <> 0.
Proof.
  intros Hy Hn.
  assert (E : newtonY a y * (2 * y) = y * y + (a - 1) * (a - 1)).
  { unfold newtonY. field. exact Hy. }
  assert (Hp : 0 < y * y) by (destruct (Rdichotomy _ _ Hy); nra).
  pose proof (Rle_0_sqr (a - 1)) as Hq. unfold Rsqr in Hq.
  rewrite Hn in E. lra.
Qed.

Section Paraboloids.
Variable solve : Mat R -> Col R -> Col R.
Hypothesis Hs : exactSolver solve.
Variable h : R.
Hypothesis Hh : h <> 0.

Lemma turn_at_guess (s : State) (a y z : R) :
  at_guess s a y z -> y <> 0 ->
  at_guess (loopBody solve calculateDependentVariables h s)
    1 (newtonY a y) 0
  /\ error (loopBody solve calculateDependentVariables h s)
     = sqrt 3 * (newtonY a y * newtonY a y)
  /\ count (loopBody solve calculateDependentVariables h s)
     = (count s + 1)%Z.
Proof.
  intros (Ho & Ht & Hg & HJ & Htc) Hy.
  rewrite (loopBody_record solve calculateDependentVariables h s
             calculateDependentVariables_overwrites HJ Htc).
  rewrite Ho, Ht, Hg.
  rewrite (newtonStep_mainOffsets solve h a y z Hs Hh Hy).
  unfold at_guess.
  cbn [offsets targetsDesired currentGuess jacobian targetsCalculated
       error count].
  rewrite residual_on_line.
  repeat split; reflexivity.
Qed.

Lemma turns_at_guess (A0 y z : R) (n : nat) :
  y <> 0 ->
  let s := Nat.iter (S n) (loopBody solve calculateDependentVariables h)
             (initialState mainOffsets mainTargetsDesired
                [C_of_real A0; C_of_real y; C_of_real z]) in
  at_guess s 1 (newtonY A0 y / 2 ^ n) 0
  /\ error s = sqrt 3 * ((newtonY A0 y / 2 ^ n) * (newtonY A0 y / 2 ^ n))
  /\ count s = Z.of_nat (S n).
Proof.
  intros Hy. induction n as [|n IH].
  - simpl Nat.iter.
    destruct (turn_at_guess
                (initialState mainOffsets mainTargetsDesired
                   [C_of_real A0; C_of_real y; C_of_real z]) A0 y z)
      as (G & E & C).
    { repeat split. }
    { exact Hy. }
    cbv zeta. replace (newtonY A0 y / 2 ^ 0) with (newtonY A0 y)
      by (simpl; field).
    split; [exact G|]. split; [exact E|]. rewrite C. reflexivity.
  - cbv zeta in IH. destruct IH as (G & E & C).
    assert (Hp : 2 ^ n <> 0) by (apply pow_nonzero; lra).
    assert (Hyn : newtonY A0 y / 2 ^ n <> 0).
    { pose proof (newtonY_nonzero A0 y Hy) as Hn. intros Hq.
      apply Hn. apply (Rmult_eq_reg_r (/ 2 ^ n)).
      - unfold Rdiv in Hq. rewrite Hq. ring.
      - apply Rinv_neq_0_compat. exact Hp. }
    cbv zeta. rewrite Nat.iter_succ.
    destruct (turn_at_guess _ _ _ _ G Hyn) as (G' & E' & C').
    rewrite (newtonY_line _ Hyn) in G', E'.
    replace (newtonY A0 y / 2 ^ S n) with (newtonY A0 y / 2 ^ n / 2)
      by (simpl; field; exact Hp).
    split; [exact G'|]. split; [exact E'|].
    rewrite C', C. lia.
Qed.

(** X12: one turn of the loop on the paraboloids.  On the offset table of
    main, from a real guess (x, y, z) with y <> 0 and with a solver that is
    exact on regular systems, the new guess is (1, (y^2 + (x-1)^2) / (2 y), 0)
    whatever the probe distance h <> 0: the first and third coordinates are
    at the root after a single turn. *)
Theorem paraboloid_newton_turn (s : State) :
  offsets s = mainOffsets ->
  all_real (currentGuess s) -> length (currentGuess s) = NUMDIMENSIONS ->
  length (jacobian s) = NUMDIMENSIONS ->
  length (targetsCalculated s) = NUMDIMENSIONS ->
  re (nth 1 (currentGuess s) C0) <> 0 ->
  currentGuess (loopBody solve calculateDependentVariables h s)
  = [C_of_real 1;
     C_of_real (newtonY (re (nth 0 (currentGuess s) C0))
                        (re (nth 1 (currentGuess s) C0)));
     C_of_real 0].
Proof.
  intros Ho Hx Hl HJ Htc Hy.
  rewrite (loopBody_record solve calculateDependentVariables h s
             calculateDependentVariables_overwrites HJ Htc).
  cbn [currentGuess]. rewrite Ho.
  pose proof (real_vector (currentGuess s) Hx Hl) as E.
  set (a := re (nth 0 (currentGuess s) C0)) in *.
  set (y := re (nth 1 (currentGuess s) C0)) in *.
  set (z := re (nth 2 (currentGuess s) C0)) in *.
  rewrite E.
  exact (newtonStep_mainOffsets solve h a y z Hs Hh Hy).
Qed.

(** X13: the turns of the loop on the paraboloids.  From a real initial
    guess (x, y, z) with y <> 0, with the desired targets zero and a solver
    exact on regular systems, after n + 1 turns the guess is
    (1, y1 / 2^n, 0) with y1 = (y^2 + (x-1)^2) / (2 y), the error is
    sqrt 3 times the square of the second coordinate, and count = n + 1:
    the second coordinate is halved and the error quartered at each turn. *)
Theorem paraboloid_newton_turns (a y z : R) (n : nat) :
  y <> 0 ->
  let s := Nat.iter (S n) (loopBody solve calculateDependentVariables h)
             (initialState mainOffsets mainTargetsDesired
                [C_of_real a; C_of_real y; C_of_real z]) in
  currentGuess s
  = [C_of_real 1; C_of_real (newtonY a y / 2 ^ n); C_of_real 0]
  /\ error s = sqrt 3 * ((newtonY a y / 2 ^ n) * (newtonY a y / 2 ^ n))
  /\ count s = Z.of_nat (S n).
Proof.
  intros Hy s.
  destruct (turns_at_guess a y z n Hy) as ((_ & _ & G & _ & _) & E & C).
  split; [exact G|]. split; [exact E | exact C].
Qed.

End Paraboloids.

Lemma sqrt_3_bounds : 17 / 10 < sqrt 3 < 18 / 10.
Proof.
  split.
  - rewrite <- (sqrt_square (17 / 10)) by lra.
    apply sqrt_lt_1_alt. lra.
  - rewrite <- (sqrt_square (18 / 10)) by lra.
    apply sqrt_lt_1_alt. lra.
Qed.

Lemma newtonY_mainCurrentGuess : newtonY 2 2 = 5 / 4.
Proof. unfold newtonY. field. Qed.

Lemma cramerSolve_exact : exactSolver (cramerSolve (T:=R)).
Proof.
  intros J b HJ Hc Hb Hd. split.
  - apply cramerSolve_solves; assumption.
  - reflexivity.
Qed.

Lemma PROBEDISTANCE_nonzero : PROBEDISTANCE <> 0.
Proof. apply Rinv_neq_0_compat, pow_nonzero. lra. Qed.

(** X14: the program in exact arithmetic.  With any solver that is exact on
    regular systems, the loop of main makes exactly 9 turns and ends with
    count = 9, the guess (1, 5/1024, 0) and the error sqrt 3 * (5/1024)^2,
    which is below the tolerance 10^-4: the cap and the tolerance are
    reached at the same turn. *)
Theorem main_exact_run (solve : Mat R -> Col R -> Col R) :
  exactSolver solve ->
  exists s : State,
    main solve = Some s
    /\ count s = 9%Z
    /\ currentGuess s = [C_of_real 1; C_of_real (5 / 1024); C_of_real 0]
    /\ error s = sqrt 3 * (5 / 1024 * (5 / 1024))
    /\ error s <= ERRORTOLLERANCE.
Proof.
  intros Hs.
  pose proof sqrt_3_bounds as [Hlo Hhi].
  set (init := initialState (T:=R) mainOffsets mainTargetsDesired
                 [C_of_real 2; C_of_real 2; C_of_real 2]).
  assert (Hturn : forall j : nat,
            let s := Nat.iter (S j)
                       (loopBody solve calculateDependentVariables
                          PROBEDISTANCE) init in
            currentGuess s
            = [C_of_real 1; C_of_real (5 / 4 / 2 ^ j); C_of_real 0]
            /\ error s = sqrt 3 * ((5 / 4 / 2 ^ j) * (5 / 4 / 2 ^ j))
            /\ count s = Z.of_nat (S j)).
  { intros j. rewrite <- newtonY_mainCurrentGuess.
    assert (H2 : (2 : R) <> 0) by lra.
    destruct (turns_at_guess solve Hs PROBEDISTANCE PROBEDISTANCE_nonzero
                2 2 2 j H2) as ((_ & _ & G & _ & _) & E & C).
    split; [exact G|]. split; [exact E | exact C]. }
  destruct (while_iter solve calculateDependentVariables PROBEDISTANCE
              MAXITERATIONS ERRORTOLLERANCE (Z.to_nat MAXITERATIONS) init)
    as (n & Hw & Hn & _ & Hex).
  { simpl. unfold MAXITERATIONS. lia. }
  assert (Htest : forall k : nat, (k <= 8)%nat ->
            loopTest MAXITERATIONS ERRORTOLLERANCE
              (Nat.iter k (loopBody solve calculateDependentVariables
                             PROBEDISTANCE) init) = true).
  { intros k Hk. unfold loopTest. apply andb_true_intro.
    destruct k as [|j].
    - split; [reflexivity|]. simpl. apply bool_decide_eq_true. lra.
    - destruct (Hturn j) as (_ & E & C). rewrite E, C. split.
      + apply Z.ltb_lt. unfold MAXITERATIONS. lia.
      + simpl. apply bool_decide_eq_true.
        do 8 (destruct j as [|j]; [simpl; lra|]). lia. }
  assert (Hn9 : n = 9%nat).
  { change (Z.to_nat MAXITERATIONS) with 9%nat in Hn.
    destruct (decide (n <= 8)%nat) as [Hle | Hgt]; [|lia].
    rewrite (Htest n Hle) in Hex. discriminate. }
  subst n.
  exists (Nat.iter 9 (loopBody solve calculateDependentVariables
                        PROBEDISTANCE) init).
  destruct (Hturn 8%nat) as (G & E & C).
  replace (5 / 4 / 2 ^ 8) with (5 / 1024) in G, E by (simpl; lra).
  split; [exact Hw|]. split; [exact C|]. split; [exact G|].
  split; [exact E|].
  rewrite E. unfold ERRORTOLLERANCE. simpl. lra.
Qed.

Lemma paraboloid_newton_turn_witness :
  currentGuess
    (loopBody (T:=R) cramerSolve calculateDependentVariables PROBEDISTANCE
       (initialState mainOffsets mainTargetsDesired mainCurrentGuess))
  = [C_of_real 1;
     C_of_real
       (newtonY
          (re (nth 0 (currentGuess
                        (initialState (T:=R) mainOffsets mainTargetsDesired
                           mainCurrentGuess)) C0))
          (re (nth 1 (currentGuess
                        (initialState (T:=R) mainOffsets mainTargetsDesired
                           mainCurrentGuess)) C0)));
     C_of_real 0].
Proof.
  apply (paraboloid_newton_turn cramerSolve cramerSolve_exact PROBEDISTANCE
           PROBEDISTANCE_nonzero
           (initialState mainOffsets mainTargetsDesired mainCurrentGuess)).
  - reflexivity.
  - exact mainCurrentGuess_real.
  - reflexivity.
  - reflexivity.
  - reflexivity.
  - simpl. lra.
Defined.

Lemma paraboloid_newton_turns_witness :
  let s := Nat.iter 3
             (loopBody (T:=R) cramerSolve calculateDependentVariables
                PROBEDISTANCE)
             (initialState mainOffsets mainTargetsDesired
                [C_of_real 2; C_of_real 2; C_of_real 2]) in
  currentGuess s
  = [C_of_real 1; C_of_real (newtonY 2 2 / 2 ^ 2); C_of_real 0]
  /\ error s = sqrt 3 * ((newtonY 2 2 / 2 ^ 2) * (newtonY 2 2 / 2 ^ 2))
  /\ count s = Z.of_nat 3.
Proof.
  apply (paraboloid_newton_turns cramerSolve cramerSolve_exact PROBEDISTANCE
           PROBEDISTANCE_nonzero 2 2 2 2).
  lra.
Defined.

Lemma main_exact_run_witness :
  exists s : State,
    main (T:=R) cramerSolve = Some s
    /\ count s = 9%Z
    /\ currentGuess s = [C_of_real 1; C_of_real (5 / 1024); C_of_real 0]
    /\ error s = sqrt 3 * (5 / 1024 * (5 / 1024))
    /\ error s <= ERRORTOLLERANCE.
Proof.
  apply (main_exact_run cramerSolve). exact cramerSolve_exact.
Defined.

End ParaboloidFacts.

(** ** The driver at the program's own values, in binary64 *)

Lemma loopBody_turn_witness :
  let s := initialState (T:=float) mainOffsets mainTargetsDesired
             mainCurrentGuess in
  let A := offsets s in
  let x := currentGuess s in
  let s' := loopBody cramerSolve calculateDependentVariables PROBEDISTANCE s in
  currentGuess s'
  = vadd_real x
      (cramerSolve (jacobianOf PROBEDISTANCE calculateDependentVariables A x)
         (vneg (real (modelValue calculateDependentVariables A x))))
  /\ jacobian s' = jacobianOf PROBEDISTANCE calculateDependentVariables A x
  /\ realTargetsCalculated s'
     = real (modelValue calculateDependentVariables A x)
  /\ targetsCalculated s'
     = modelValue calculateDependentVariables A (currentGuess s')
  /\ error s'
     = calculateResidual (targetsDesired s)
         (modelValue calculateDependentVariables A (currentGuess s'))
  /\ count s' = (count s + 1)%Z
  /\ offsets s' = A
  /\ targetsDesired s' = targetsDesired s
  /\ length (jacobian s') = NUMDIMENSIONS
  /\ length (targetsCalculated s') = NUMDIMENSIONS.
Proof.
  apply (loopBody_turn (T:=float) cramerSolve calculateDependentVariables
           PROBEDISTANCE
           (initialState mainOffsets mainTargetsDesired mainCurrentGuess)).
  - exact calculateDependentVariables_overwrites.
  - reflexivity.
  - reflexivity.
Defined.

Lemma newtonRaphson_reports_residual_witness :
  exists s : State,
    newtonRaphson (T:=float) cramerSolve calculateDependentVariables
      PROBEDISTANCE MAXITERATIONS ERRORTOLLERANCE mainOffsets
      mainTargetsDesired mainCurrentGuess = Some s
    /\ offsets s = mainOffsets
    /\ targetsDesired s = mainTargetsDesired
    /\ ((count s = 0%Z
         /\ s = initialState mainOffsets mainTargetsDesired mainCurrentGuess)
        \/ ((0 < count s)%Z
            /\ targetsCalculated s
               = modelValue calculateDependentVariables mainOffsets
                   (currentGuess s)
            /\ error s
               = calculateResidual mainTargetsDesired
                   (modelValue calculateDependentVariables mainOffsets
                      (currentGuess s)))).
Proof.
  apply (newtonRaphson_reports_residual (T:=float) cramerSolve
           calculateDependentVariables PROBEDISTANCE MAXITERATIONS
           ERRORTOLLERANCE mainOffsets mainTargetsDesired mainCurrentGuess).
  exact calculateDependentVariables_overwrites.
Defined.

(** ** Binary64: a model that fails at the probes *)

Section Binary64Probes.
Local Open Scope float_scope.
Variable solve : Mat float -> Col float -> Col float.
Variable model :
  Mat (complex float) -> Col (complex float) -> Col (complex float)
  -> Col (complex float).
Variables (h : float) (K : Z) (eps : float).

Lemma all_real_isReal (x : Col (complex float)) :
  all_real x -> isReal x = true.
Proof.
  intros Hx. unfold isReal.
  induction Hx as [|z x Hz _ IH]; simpl; [reflexivity|].
  rewrite Hz, IH. reflexivity.
Qed.

Lemma vadd_real_all_real_binary64 (x : Col (complex float)) (d : Col float) :
  all_real x -> all_real (vadd_real x d).
Proof.
  intros Hx. revert d.
  induction Hx as [|z x Hz _ IH]; intros [|a d]; simpl; constructor.
  - simpl. rewrite Hz. reflexivity.
  - apply IH.
Qed.

Lemma infiniteAtProbes_real (A : Mat (complex float))
    (x b : Col (complex float)) :
  all_real x -> infiniteAtProbes model A x b = model A x b.
Proof.
  intros Hx. unfold infiniteAtProbes. rewrite (all_real_isReal x Hx).
  reflexivity.
Qed.

Lemma infiniteAtProbes_imag (A : Mat (complex float))
    (x b : Col (complex float)) :
  imag (infiniteAtProbes model A x b) = imag (model A x b).
Proof.
  unfold infiniteAtProbes, imag. destruct (isReal x); [reflexivity|].
  rewrite map_map. reflexivity.
Qed.

Lemma infiniteAtProbes_overwrites :
  overwrites NUMDIMENSIONS model ->
  overwrites NUMDIMENSIONS (infiniteAtProbes model).
Proof.
  intros Hm A x b b' Hb Hb'. destruct (Hm A x b b' Hb Hb') as [E L].
  unfold infiniteAtProbes. rewrite E. split; [reflexivity|].
  destruct (isReal x); [|rewrite length_map]; rewrite <- E; exact L.
Qed.

(* one turn is the same with the model and with the model failing at the
   probes *)
Lemma loopBody_infiniteAtProbes (s : State) :
  overwrites NUMDIMENSIONS model ->
  length (jacobian s) = NUMDIMENSIONS ->
  length (targetsCalculated s) = NUMDIMENSIONS ->
  all_real (currentGuess s) ->
  loopBody solve (infiniteAtProbes model) h s = loopBody solve model h s.
Proof.
  intros Hm HJ Htc Hx.
  rewrite (loopBody_record solve (infiniteAtProbes model) h s
             (infiniteAtProbes_overwrites Hm) HJ Htc).
  rewrite (loopBody_record solve model h s Hm HJ Htc).
  assert (EF : modelValue (infiniteAtProbes model) (offsets s)
                 (currentGuess s)
               = modelValue model (offsets s) (currentGuess s)).
  { apply infiniteAtProbes_real. exact Hx. }
  assert (EJ : jacobianOf h (infiniteAtProbes model) (offsets s)
                 (currentGuess s)
               = jacobianOf h model (offsets s) (currentGuess s)).
  { unfold jacobianOf, modelValue. simpl.
    rewrite !infiniteAtProbes_imag. reflexivity. }
  assert (EN : newtonStep solve h (infiniteAtProbes model) (offsets s)
                 (currentGuess s)
               = newtonStep solve h model (offsets s) (currentGuess s)).
  { unfold newtonStep. rewrite EF, EJ. reflexivity. }
  rewrite EN, EF, EJ.
  assert (EF' : modelValue (infiniteAtProbes model) (offsets s)
                  (newtonStep solve h model (offsets s) (currentGuess s))
                = modelValue model (offsets s)
                    (newtonStep solve h model (offsets s) (currentGuess s))).
  { apply infiniteAtProbes_real. unfold newtonStep.
    apply vadd_real_all_real_binary64. exact Hx. }
  rewrite EF'. reflexivity.
Qed.

Lemma while_infiniteAtProbes (fuel : nat) (s : State) :
  overwrites NUMDIMENSIONS model ->
  length (jacobian s) = NUMDIMENSIONS ->
  length (targetsCalculated s) = NUMDIMENSIONS ->
  all_real (currentGuess s) ->
  while solve (infiniteAtProbes model) h K eps fuel s
  = while solve model h K eps fuel s.
Proof.
  intros Hm. revert s.
  induction fuel as [|fuel IH]; intros s HJ Htc Hx; simpl.
  - reflexivity.
  - change (loopTest K eps s) with (loopTest K eps s).
    destruct (loopTest K eps s); [|reflexivity].
    rewrite (loopBody_infiniteAtProbes s Hm HJ Htc Hx).
    destruct (iter_shapes solve model h 1 s Hm HJ Htc) as [S1 S2].
    simpl Nat.iter in S1, S2.
    apply IH; [exact S1 | exact S2 |].
    rewrite loopBody_guess. apply vadd_real_all_real_binary64. exact Hx.
Qed.

End Binary64Probes.

(** C7 (as amended): the code has no test for non-finite values and no
    terminal status.  calculateJacobian hands back the unperturbed values of
    the model as they are and keeps only the imaginary parts of the values
    at the probes: a model made to return +Inf in every real part at every
    probe gives the same solve as the model itself, for every solver.  The
    one test, that of the loop, is false for a NaN error, and for an error
    of +Inf and a finite tolerance it is count < K. *)
Theorem nonfinite_probe_values_are_ignored
    (solve : Mat float -> Col float -> Col float)
    (model : Mat (complex float) -> Col (complex float)
             -> Col (complex float) -> Col (complex float))
    (h : float) (K : Z) (eps : float)
    (A : Mat (complex float)) (Fstar x0 : Col (complex float)) :
  overwrites NUMDIMENSIONS model -> all_real x0 ->
  (forall x b : Col (complex float), isReal x = false ->
     Forall (fun z => re z = infinity) (infiniteAtProbes model A x b))
  /\ newtonRaphson solve (infiniteAtProbes model) h K eps A Fstar x0
     = newtonRaphson solve model h K eps A Fstar x0
  /\ (forall J tc x,
        length J = NUMDIMENSIONS -> length tc = NUMDIMENSIONS ->
        (calculateJacobian h A model J tc x).1.2 = modelValue model A x)
  /\ (forall s : State, error s = nan -> loopTest K eps s = false)
  /\ (forall s : State, error s = infinity -> nonfinite eps = false ->
        loopTest K eps s = (count s <? K)%Z).
Proof.
  intros Hm Hx0. split; [|split; [|split; [|split]]].
  - intros x b Hx. unfold infiniteAtProbes. rewrite Hx.
    induction (model A x b) as [|z v IH]; simpl; constructor;
      [reflexivity | exact IH].
  - apply while_infiniteAtProbes; [exact Hm | reflexivity | reflexivity |].
    exact Hx0.
  - intros J tc x HJ Htc.
    rewrite (calculateJacobian_columns h A model J tc x Hm HJ Htc).
    reflexivity.
  - intros s Hs. unfold loopTest. simpl. rewrite Hs, ltb_nan.
    apply andb_false_r.
  - intros s Hs Heps. unfold loopTest. simpl. rewrite Hs.
    unfold nonfinite in Heps. apply orb_false_elim in Heps as [Hn Hi].
    rewrite ltb_infinity; [apply andb_true_r | exact Hn |].
    intros ->. discriminate.
Qed.

Lemma nonfinite_probe_values_are_ignored_witness :
  (forall x b : Col (complex float), isReal x = false ->
     Forall (fun z => re z = infinity)
       (infiniteAtProbes calculateDependentVariables mainOffsets x b))
  /\ newtonRaphson cramerSolve (infiniteAtProbes calculateDependentVariables)
       PROBEDISTANCE MAXITERATIONS ERRORTOLLERANCE mainOffsets
       mainTargetsDesired mainCurrentGuess
     = newtonRaphson cramerSolve calculateDependentVariables PROBEDISTANCE
         MAXITERATIONS ERRORTOLLERANCE mainOffsets mainTargetsDesired
         mainCurrentGuess
  /\ (forall J tc x,
        length J = NUMDIMENSIONS -> length tc = NUMDIMENSIONS ->
        (calculateJacobian PROBEDISTANCE mainOffsets
           calculateDependentVariables J tc x).1.2
        = modelValue calculateDependentVariables mainOffsets x)
  /\ (forall s : State, error s = nan ->
        loopTest MAXITERATIONS ERRORTOLLERANCE s = false)
  /\ (forall s : State, error s = infinity ->
        nonfinite ERRORTOLLERANCE = false ->
        loopTest MAXITERATIONS ERRORTOLLERANCE s
        = (count s <? MAXITERATIONS)%Z).
Proof.
  apply (nonfinite_probe_values_are_ignored cramerSolve
           calculateDependentVariables PROBEDISTANCE MAXITERATIONS
           ERRORTOLLERANCE mainOffsets mainTargetsDesired mainCurrentGuess).
  - exact calculateDependentVariables_overwrites.
  - repeat constructor.
Defined.

(** C7, the claim as stated fails: with the model of the program made to
    return +Inf in every real part at the probes, each of the three probes
    of the first turn gets three non-finite values, and yet the solve is the
    one of main, for every solver; with Cramer's rule it makes its 9 turns
    and ends with a finite error below the tolerance. *)
Lemma infinite_probe_values_do_not_stop_the_solve :
  (forall j : nat, (j < NUMDIMENSIONS)%nat ->
     Forall (fun z => nonfinite (re z) = true)
       (modelValue (infiniteAtProbes calculateDependentVariables) mainOffsets
          (perturbed PROBEDISTANCE j mainCurrentGuess))
     /\ length (modelValue (infiniteAtProbes calculateDependentVariables)
                  mainOffsets (perturbed PROBEDISTANCE j mainCurrentGuess))
        = NUMDIMENSIONS)
  /\ (forall solve : Mat float -> Col float -> Col float,
        newtonRaphson solve (infiniteAtProbes calculateDependentVariables)
          PROBEDISTANCE MAXITERATIONS ERRORTOLLERANCE mainOffsets
          mainTargetsDesired mainCurrentGuess
        = main solve)
  /\ option_map count
       (newtonRaphson cramerSolve
          (infiniteAtProbes calculateDependentVariables) PROBEDISTANCE
          MAXITERATIONS ERRORTOLLERANCE mainOffsets mainTargetsDesired
          mainCurrentGuess)
     = Some 9%Z
  /\ option_map (fun s => (nonfinite (error s),
                           PrimFloat.ltb (error s) ERRORTOLLERANCE))
       (newtonRaphson cramerSolve
          (infiniteAtProbes calculateDependentVariables) PROBEDISTANCE
          MAXITERATIONS ERRORTOLLERANCE mainOffsets mainTargetsDesired
          mainCurrentGuess)
     = Some (false, true).
Proof.
  split; [|split; [|split]].
  - unfold NUMDIMENSIONS. intros j Hj.
    destruct j as [|[|[|j]]]; try lia; split;
      try (vm_compute; reflexivity); vm_compute; repeat constructor.
  - intros solve. unfold main, newtonRaphson.
    apply while_infiniteAtProbes.
    + exact calculateDependentVariables_overwrites.
    + reflexivity.
    + reflexivity.
    + repeat constructor.
  - vm_compute. reflexivity.
  - vm_compute. reflexivity.
Qed.
